(** * KMGI-ROKU: Direct Publisher feed to Roku Search Feed conversion

    A shallow embedding of the two converters of the repository,
    [convert_to_search_feed.py] (module [V1]) and
    [convert_to_search_feed_v2.py] (module [V2]), and the properties of
    their item conversion.

    Modelling conventions.
    - A Python [str] is a [string]: a sequence of code points below 256.
      Python's [len] counts code points, and so does [String.length].
    - A Python [int] is a [Z].
    - A JSON object with a fixed shape is a record whose fields are
      [option]s: [None] is an absent key.
    - A raising operation returns a [result]; the only exception the
      conversion can raise on well-shaped records is [KeyError]. *)

From Stdlib Require Import String Ascii List ZArith Lia Bool.
Import ListNotations.

Open Scope string_scope.
Open Scope Z_scope.

(** ** Python string primitives *)

(** [len(s)] *)
Definition len (s : string) : Z := Z.of_nat (String.length s).

(** Truth value of a string: [bool(s)], false exactly on the empty string. *)
Definition truthy (s : string) : bool :=
  match s with
  | EmptyString => false
  | String _ _ => true
  end.

(** The first [n] characters of [s] (all of [s] when it is shorter). *)
Fixpoint take (n : nat) (s : string) : string :=
  match n, s with
  | S n', String c s' => String c (take n' s')
  | _, _ => EmptyString
  end.

(** [s[:k]], the slice with an upper bound only.  A negative bound counts
    from the end of the string and is clamped at the start. *)
Definition slice_to (k : Z) (s : string) : string :=
  if 0 <=? k then take (Z.to_nat k) s
  else take (String.length s - Z.to_nat (- k)) s.

(** [s.endswith(suffix)] *)
Fixpoint endswith (s suffix : string) : bool :=
  (s =? suffix)%string ||
  match s with
  | EmptyString => false
  | String _ s' => endswith s' suffix
  end.

(** [x or y] on strings. *)
Definition or_else (x y : string) : string := if truthy x then x else y.

(** [d.get(key, default)] on a field that may be absent. *)
Definition get {A : Type} (field : option A) (default : A) : A :=
  match field with
  | Some v => v
  | None => default
  end.

(** ** Python string primitives, continued *)

(** [ord(c)] *)
Definition ord (c : ascii) : N := N_of_ascii c.

(** The quotation mark, code point 34. *)
Definition dquote : ascii := ascii_of_N 34.

(** [c.isspace()] on code points below 256: tab to carriage return,
    the four separators 28 to 31, space, NEL (133) and the no-break
    space (160). *)
Definition isspace (c : ascii) : bool :=
  let n := ord c in
  ((9 <=? n) && (n <=? 13) || (28 <=? n) && (n <=? 32)
   || (n =? 133) || (n =? 160))%N.

(** [c.isdigit()] as the pattern [\d] sees it below 256: 0 to 9. *)
Definition isdigit (c : ascii) : bool :=
  let n := ord c in ((48 <=? n) && (n <=? 57))%N.

(** [c.lower()]: the letters A to Z and the capital letters of the
    Latin-1 block (192 to 222 but the multiplication sign 215) move up
    by 32. *)
Definition lower_char (c : ascii) : ascii :=
  let n := ord c in
  if ((65 <=? n) && (n <=? 90)
      || (192 <=? n) && (n <=? 222) && negb (n =? 215))%N
  then ascii_of_N (n + 32) else c.

(** [c.upper()]: the letters a to z and the small letters 224 to 254
    (but the division sign 247) move down by 32.  The upper-case forms of
    the three code points 181, 223 and 255 lie outside this model (two
    have code points above 255, and 223 becomes "SS"); they are left as
    they are.  No key of [quality_map] below holds "SS" or a character
    above 127, so a lookup of an upper-cased string is not affected. *)
Definition upper_char (c : ascii) : ascii :=
  let n := ord c in
  if ((97 <=? n) && (n <=? 122)
      || (224 <=? n) && (n <=? 254) && negb (n =? 247))%N
  then ascii_of_N (n - 32) else c.

Fixpoint map_chars (f : ascii -> ascii) (s : string) : string :=
  match s with
  | EmptyString => EmptyString
  | String c s' => String (f c) (map_chars f s')
  end.

(** [s.lower()] and [s.upper()] *)
Definition lower (s : string) : string := map_chars lower_char s.
Definition upper (s : string) : string := map_chars upper_char s.

(** [s.lstrip(chars)], [s.rstrip(chars)] and [s.strip(chars)], the set
    of characters to remove given as a predicate. *)
Fixpoint lstrip (p : ascii -> bool) (s : string) : string :=
  match s with
  | EmptyString => EmptyString
  | String c s' => if p c then lstrip p s' else s
  end.

Fixpoint rstrip (p : ascii -> bool) (s : string) : string :=
  match s with
  | EmptyString => EmptyString
  | String c s' =>
      let r := rstrip p s' in
      if negb (truthy r) && p c then EmptyString else String c r
  end.

Definition strip (p : ascii -> bool) (s : string) : string :=
  rstrip p (lstrip p s).

(** [s.strip()] removes white space; [s.strip(q)], with [q] the string
    made of one quotation mark, removes quotation marks. *)
Definition strip_space (s : string) : string := strip isspace s.
Definition strip_quote (s : string) : string :=
  strip (fun c => Ascii.eqb c dquote) s.

(** [s[n:]] for a natural [n]. *)
Fixpoint drop (n : nat) (s : string) : string :=
  match n, s with
  | S n', String _ s' => drop n' s'
  | _, _ => s
  end.

(** [sub in s] *)
Fixpoint contains (sub s : string) : bool :=
  prefix sub s ||
  match s with
  | EmptyString => false
  | String _ s' => contains sub s'
  end.

(** [s.split(sep)] for a non-empty [sep]: the text is scanned from the
    left, [cur] collects the current piece, and after a match of [sep]
    its remaining [skip] characters are passed over, so that matches do
    not overlap. *)
Fixpoint split_aux (sep : string) (skip : nat) (cur s : string)
  : list string :=
  match s with
  | EmptyString => [cur]
  | String c s' =>
      match skip with
      | S k => split_aux sep k cur s'
      | O =>
          if prefix sep s
          then cur :: split_aux sep (String.length sep - 1) EmptyString s'
          else split_aux sep O (cur ++ String c EmptyString) s'
      end
  end.

Definition split (sep s : string) : list string :=
  split_aux sep 0 EmptyString s.

(** [l[-1]] of a list of strings that is never empty here. *)
Definition last_piece (l : list string) : string := last l EmptyString.

(** [sep.join(l)] *)
Definition join (sep : string) (l : list string) : string :=
  String.concat sep l.

(** The longest prefix of [s] made of characters satisfying [p]. *)
Fixpoint take_while (p : ascii -> bool) (s : string) : string :=
  match s with
  | EmptyString => EmptyString
  | String c s' => if p c then String c (take_while p s') else EmptyString
  end.

(** [re.search(r'/play/(\d+)', s)]: group 1 of the leftmost match, the
    longest run of digits after the first "/play/" that is followed by a
    digit; [None] when there is no match. *)
Fixpoint search_play_digits (s : string) : option string :=
  let here :=
    if prefix "/play/" s then take_while isdigit (drop 6 s)
    else EmptyString in
  if truthy here then Some here
  else match s with
       | EmptyString => None
       | String _ s' => search_play_digits s'
       end.

(** [x in S] for a set of strings given by the list of its elements. *)
Definition mem (x : string) (S : list string) : bool :=
  existsb (String.eqb x) S.

(** [d.get(key, default)] on a dict literal given by its entries. *)
Fixpoint dict_get (d : list (string * string)) (key default : string)
  : string :=
  match d with
  | [] => default
  | (k, v) :: d' => if (k =? key)%string then v else dict_get d' key default
  end.

(** ** Exceptions *)

Inductive exn : Type :=
| KeyError (key : string).

Inductive result (A : Type) : Type :=
| Ok (a : A)
| Raise (e : exn).

Arguments Ok {A} a.
Arguments Raise {A} e.

Definition bind {A B : Type} (m : result A) (k : A -> result B)
  : result B :=
  match m with
  | Ok a => k a
  | Raise e => Raise e
  end.

Notation "x <- m ;; k" := (bind m (fun x => k))
  (at level 61, m at next level, right associativity).

(** [d[key]]: raises [KeyError] on an absent key. *)
Definition subscript {A : Type} (key : string) (field : option A)
  : result A :=
  match field with
  | Some v => Ok v
  | None => Raise (KeyError key)
  end.

(** A [for] loop that appends one value per element and stops at the
    first exception. *)
Fixpoint for_each {A B : Type} (body : A -> result B) (l : list A)
  : result (list B) :=
  match l with
  | [] => Ok []
  | x :: l' => y <- body x ;; ys <- for_each body l' ;; Ok (y :: ys)
  end.

(** ** Data model *)

(** A JSON integer field that may hold [null]. *)
Inductive JInt : Type :=
| JNull
| JNum (n : Z).

(** The source format (Direct Publisher). *)
Module DP.

Record Rating : Type := {
  ratingSource : option string;
  rating_value : option string   (* key "rating" *)
}.

Record Video : Type := {
  url : option string;
  quality : option string;
  video_duration : option Z      (* key "duration", never read *)
}.

Record Content : Type := {
  videos : option (list Video);
  duration : option JInt
}.

Record Item : Type := {
  id : option string;
  title : option string;
  shortDescription : option string;
  longDescription : option string;
  releaseDate : option string;
  genres : option (list string);
  tags : option (list string);
  thumbnail : option string;
  rating : option Rating;
  content : option Content
}.

(** The dict [{}] that [item.get("rating", {})] and
    [item.get("content", {})] fall back to. *)
Definition empty_rating : Rating :=
  {| ratingSource := None; rating_value := None |}.
Definition empty_content : Content :=
  {| videos := None; duration := None |}.

(** The source document: [None] is an absent collection. *)
Record Feed : Type := {
  providerName : option string;
  movies : option (list Item);
  shortFormVideos : option (list Item)
}.

(** An item that holds only an id. *)
Definition only_id (i : string) : Item :=
  {| id := Some i; title := None; shortDescription := None;
     longDescription := None; releaseDate := None; genres := None;
     tags := None; thumbnail := None; rating := None; content := None |}.

End DP.

(** The target format (Search Feed). *)
Module SF.

Record Text : Type := {
  value : string;
  languages : option (list string)
}.

Record AdvisoryRating : Type := {
  source : string;
  rating_value : string          (* key "value" *)
}.

Record Image : Type := {
  image_type : string;           (* key "type" *)
  url : string
}.

Record PlayOption : Type := {
  license : string;
  quality : string;
  playId : string
}.

Record Content : Type := {
  playOptions : list PlayOption
}.

Record Asset : Type := {
  id : string;
  type : string;
  titles : list Text;
  shortDescriptions : list Text;
  longDescriptions : option (list Text);
  releaseDate : string;
  genres : list string;
  tags : option (list string);
  advisoryRatings : list AdvisoryRating;
  images : list Image;
  durationInSeconds : Z;
  content : Content
}.

(** The output document. *)
Record Feed : Type := {
  version : string;
  defaultLanguage : string;
  defaultAvailabilityCountries : list string;
  assets : list Asset
}.

End SF.

(** Truth values of optional fields, as [if d.get(key):] tests them. *)
Definition truthy_str (field : option string) : bool :=
  match field with
  | Some s => truthy s
  | None => false
  end.

Definition truthy_list {A : Type} (field : option (list A)) : bool :=
  match field with
  | Some (_ :: _) => true
  | _ => false
  end.

(** A dict is true when it has a key. *)
Definition truthy_rating (r : DP.Rating) : bool :=
  match DP.ratingSource r, DP.rating_value r with
  | None, None => false
  | _, _ => true
  end.

(** ** The canonical genre set

    [VALID_GENRES], a set literal with the same 227 elements in both
    files. *)
Definition VALID_GENRES : list string :=
  ["action"; "action sports"; "adventure"; "aerobics"; "agriculture";
   "animals"; "animated"; "anime"; "anthology"; "archery"; "arm wrestling";
   "art"; "arts/crafts"; "artistic gymnastics"; "artistic swimming";
   "athletics"; "auction"; "auto"; "auto racing"; "aviation"; "awards";
   "badminton"; "ballet"; "baseball"; "basketball"; "3x3 basketball";
   "beach soccer"; "beach volleyball"; "biathlon"; "bicycle";
   "bicycle racing"; "billiards"; "biography"; "blackjack"; "bmx racing";
   "boat"; "boat racing"; "bobsled"; "bodybuilding"; "bowling"; "boxing";
   "bullfighting"; "bus./financial"; "canoe"; "card games"; "ceremony";
   "cheerleading"; "children"; "children-music"; "children-special";
   "children-talk"; "collectibles"; "comedy"; "comedy drama"; "community";
   "computers"; "canoe/kayak"; "consumer"; "cooking"; "cricket"; "crime";
   "crime drama"; "curling"; "cycling"; "dance"; "dark comedy"; "darts";
   "debate"; "diving"; "docudrama"; "documentary"; "dog racing"; "dog show";
   "dog sled"; "drag racing"; "drama"; "educational"; "entertainment";
   "environment"; "equestrian"; "erotic"; "event"; "exercise"; "fantasy";
   "faith"; "fashion"; "fencing"; "field hockey"; "figure skating";
   "fishing"; "football"; "food"; "fundraiser"; "gaelic football";
   "game show"; "gaming"; "gay/lesbian"; "golf"; "gymnastics"; "handball";
   "health"; "historical drama"; "history"; "hockey"; "holiday";
   "holiday music"; "holiday music special"; "holiday special";
   "holiday-children"; "holiday-children special"; "home improvement";
   "horror"; "horse"; "house/garden"; "how-to"; "hunting"; "hurling";
   "hydroplane racing"; "indoor soccer"; "interview"; "intl soccer"; "judo";
   "karate"; "kayaking"; "lacrosse"; "law"; "live"; "luge"; "martial arts";
   "medical"; "military"; "miniseries"; "mixed martial arts";
   "modern pentathlon"; "motorcycle"; "motorcycle racing"; "motorsports";
   "mountain biking"; "music"; "music special"; "music talk"; "musical";
   "musical comedy"; "mystery"; "nature"; "news"; "newsmagazine"; "olympics";
   "opera"; "outdoors"; "parade"; "paranormal"; "parenting";
   "performing arts"; "playoff sports"; "poker"; "politics"; "polo"; "pool";
   "pro wrestling"; "public affairs"; "racquet"; "reality"; "religious";
   "ringuette"; "road cycling"; "rodeo"; "roller derby"; "romance";
   "romantic comedy"; "rowing"; "rugby"; "running"; "rhythmic gymnastics";
   "sailing"; "science"; "science fiction"; "self improvement"; "shooting";
   "shopping"; "sitcom"; "skateboarding"; "skating"; "skeleton"; "skiing";
   "snooker"; "snowboarding"; "snowmobile"; "soap"; "soap special";
   "soap talk"; "soccer"; "softball"; "special"; "speed skating";
   "sport climbing"; "sports"; "sports talk"; "squash"; "standup";
   "sumo wrestling"; "surfing"; "suspense"; "swimming"; "table tennis";
   "taekwondo"; "talk"; "technology"; "tennis"; "theater"; "thriller";
   "track/field"; "track cycling"; "travel"; "trampoline"; "triathlon";
   "variety"; "volleyball"; "war"; "water polo"; "water skiing";
   "watersports"; "weather"; "weightlifting"; "western"; "wrestling";
   "yacht racing"].

(** ** First converter: [convert_to_search_feed.py] *)

Module V1.

(** [truncate(text, max_len)] *)
Definition truncate (text : string) (max_len : Z) : string :=
  if negb (truthy text) then text
  else if len text <=? max_len then text
  else slice_to (max_len - 3) text ++ "...".

(** [validate_genres(genres)] *)
Definition validate_genres (genres : list string) : list string :=
  let valid := filter (fun g => mem (lower g) VALID_GENRES) genres in
  match valid with
  | [] => ["special"]
  | _ => map lower valid
  end.

Definition source_map : list (string * string) :=
  [("USA_TV", "USA_PR"); ("MPAA", "MPAA"); ("USA_PR", "USA_PR")].

Definition quality_map : list (string * string) :=
  [("HD", "hd"); ("SD", "sd"); ("UHD", "uhd"); ("FHD", "fhd")].

Definition en (v : string) : SF.Text :=
  {| SF.value := v; SF.languages := Some ["en"] |}.

(** The rating branch of [convert_item]. *)
Definition advisory_ratings (item : DP.Item) : list SF.AdvisoryRating :=
  let rating := get (DP.rating item) DP.empty_rating in
  if truthy_rating rating then
    let source :=
      dict_get source_map (get (DP.ratingSource rating) "USA_TV") "USA_PR" in
    let value := get (DP.rating_value rating) "TV-G" in
    [{| SF.source := source; SF.rating_value := value |}]
  else
    [{| SF.source := "USA_PR"; SF.rating_value := "TV-G" |}].

(** The body of the loop over [content["videos"]]. *)
Definition play_option (item : DP.Item) (vid : DP.Video)
  : result SF.PlayOption :=
  let quality :=
    dict_get quality_map (upper (get (DP.quality vid) "HD")) "hd" in
  let url := get (DP.url vid) "" in
  if contains "/play/" url then
    let play_id := last_piece (split "/play/" url) in
    Ok {| SF.license := "free"; SF.quality := quality;
          SF.playId := play_id |}
  else
    i <- subscript "id" (DP.id item) ;;
    Ok {| SF.license := "free"; SF.quality := quality; SF.playId := i |}.

(** The duration branch: [content.get("duration")] is true on a number
    other than zero, and then [content["duration"]] is that number. *)
Definition duration_in_seconds (content : DP.Content) : Z :=
  match DP.duration content with
  | Some (JNum n) => if n =? 0 then 60 else n
  | _ => 60
  end.

(** The tags comprehension. *)
Definition clean_tags (tags : list string) : list string :=
  map (fun t => slice_to 20 (strip_space (strip_quote t)))
      (filter (fun t => truthy (strip_space (strip_quote t))) tags).

(** [convert_item(item, item_type)] *)
Definition convert_item (item : DP.Item) (item_type : string)
  : result SF.Asset :=
  let title := truncate (get (DP.title item) "Untitled") 200 in
  let short_desc := truncate (get (DP.shortDescription item) title) 200 in
  let long_desc := truncate (get (DP.longDescription item) "") 500 in
  i <- subscript "id" (DP.id item) ;;
  let asset_id := slice_to 50 i in
  let genres := validate_genres (get (DP.genres item) ["special"]) in
  let longDescriptions :=
    if truthy long_desc then Some [en long_desc] else None in
  let advisoryRatings := advisory_ratings item in
  images <-
    (if truthy_str (DP.thumbnail item) then
       th <- subscript "thumbnail" (DP.thumbnail item) ;;
       Ok [{| SF.image_type := "main"; SF.url := th |}]
     else Ok []) ;;
  let content := get (DP.content item) DP.empty_content in
  appended <-
    (if truthy_list (DP.videos content) then
       vids <- subscript "videos" (DP.videos content) ;;
       for_each (play_option item) vids
     else Ok []) ;;
  playOptions <-
    (match appended with
     | [] =>
         i' <- subscript "id" (DP.id item) ;;
         Ok [{| SF.license := "free"; SF.quality := "hd";
                SF.playId := i' |}]
     | _ => Ok appended
     end) ;;
  let durationInSeconds := duration_in_seconds content in
  tags <-
    (if truthy_list (DP.tags item) then
       ts <- subscript "tags" (DP.tags item) ;;
       match clean_tags ts with
       | [] => Ok None
       | cleaned => Ok (Some cleaned)
       end
     else Ok None) ;;
  Ok {| SF.id := asset_id;
        SF.type := item_type;
        SF.titles := [en title];
        SF.shortDescriptions := [en short_desc];
        SF.longDescriptions := longDescriptions;
        SF.releaseDate := get (DP.releaseDate item) "2025-01-01";
        SF.genres := genres;
        SF.tags := tags;
        SF.advisoryRatings := advisoryRatings;
        SF.images := images;
        SF.durationInSeconds := durationInSeconds;
        SF.content := {| SF.playOptions := playOptions |} |}.

(** *** The batch driver [main], without its file and console output *)

(** [str(e)] of a [KeyError]: the key between apostrophes (the keys of
    this program hold no apostrophe and no backslash). *)
Definition str_exn (e : exn) : string :=
  match e with
  | KeyError key => "'" ++ key ++ "'"
  end.

(** The state of the two conversion loops: the assets appended so far,
    the error counter and the lines printed on the error stream. *)
Record Progress : Type := {
  assets : list SF.Asset;
  errors : Z;
  stderr : list string
}.

(** One turn of a conversion loop: the [try] appends the asset, the
    [except Exception] prints a line and counts one error.  Each loop
    passes its literal, "movie" or "shortform", both to [convert_item]
    and to the line it prints. *)
Definition try_convert (kind : string) (st : Progress) (item : DP.Item)
  : Progress :=
  match convert_item item kind with
  | Ok a =>
      {| assets := assets st ++ [a]; errors := errors st;
         stderr := stderr st |}
  | Raise e =>
      {| assets := assets st; errors := errors st + 1;
         stderr :=
           stderr st ++
           ["  ERROR " ++ kind ++ " " ++ get (DP.id item) "?" ++ ": " ++
            str_exn e] |}
  end.

(** The two loops of [main], movies first. *)
Definition convert_feed (dp_feed : DP.Feed) : Progress :=
  let movies := get (DP.movies dp_feed) [] in
  let shortforms := get (DP.shortFormVideos dp_feed) [] in
  let st := {| assets := []; errors := 0; stderr := [] |} in
  let st := fold_left (try_convert "movie") movies st in
  fold_left (try_convert "shortform") shortforms st.

(** The document [main] writes. *)
Definition search_feed (dp_feed : DP.Feed) : SF.Feed :=
  {| SF.version := "1";
     SF.defaultLanguage := "en";
     SF.defaultAvailabilityCountries := ["us"];
     SF.assets := assets (convert_feed dp_feed) |}.

(** The counters of the validation loop; [id_set] is the set of the ids
    seen, kept as a list without repetition. *)
Record Validation : Type := {
  id_set : list string;
  dupes : Z;
  missing_images : Z;
  missing_duration : Z;
  long_titles : Z;
  long_short_desc : Z
}.

(** [s.add(x)] *)
Definition set_add (x : string) (s : list string) : list string :=
  if mem x s then s else x :: s.

(** The inner loops: one more for each text above 200 characters. *)
Definition count_long (texts : list SF.Text) (counter : Z) : Z :=
  fold_left
    (fun n t => if len (SF.value t) >? 200 then n + 1 else n)
    texts counter.

(** One turn of the validation loop. *)
Definition check_asset (v : Validation) (a : SF.Asset) : Validation :=
  {| id_set := set_add (SF.id a) (id_set v);
     dupes := if mem (SF.id a) (id_set v) then dupes v + 1 else dupes v;
     missing_images :=
       match SF.images a with
       | [] => missing_images v + 1
       | _ => missing_images v
       end;
     missing_duration :=
       if SF.durationInSeconds a =? 0 then missing_duration v + 1
       else missing_duration v;
     long_titles := count_long (SF.titles a) (long_titles v);
     long_short_desc :=
       count_long (SF.shortDescriptions a) (long_short_desc v) |}.

(** The validation loop of [main] over the assets. *)
Definition validate (assets : list SF.Asset) : Validation :=
  fold_left check_asset assets
    {| id_set := []; dupes := 0; missing_images := 0;
       missing_duration := 0; long_titles := 0; long_short_desc := 0 |}.

End V1.

(** ** Second converter: [convert_to_search_feed_v2.py] *)

Module V2.

(** [any(w in text for w in words)] *)
Definition any_in (words : list string) (text : string) : bool :=
  existsb (fun w => contains w text) words.

(** [classify_content(title, description, tags, duration_secs)] *)
Definition classify_content (title description : string)
  (tags : list string) (duration_secs : Z) : list string :=
  let text := lower (title ++ " " ++ description ++ " " ++ join " " tags) in
  if any_in ["church"; "sermon"; "bible"; "pastor"; "worship"; "prayer";
             "gospel"; "praise"; "ministry"; "missionary"; "baptist";
             "pastoral"; "deacon"; "sunday"; "galilee"; "scripture";
             "christmas eve"; "easter"; "revival"] text
  then ["faith"]
  else if any_in ["music"; "song"; "concert"; "singing"; "choir"; "hymn"]
                 text
  then ["music"]
  else if any_in ["christmas"; "holiday"; "thanksgiving"; "easter"] text
  then ["holiday"]
  else if any_in ["news"; "interview"; "talk"; "discussion"] text
  then ["talk"]
  else if any_in ["community"; "neighborhood"; "local"; "event"] text
  then ["community"]
  else if any_in ["education"; "learn"; "class"; "lesson"; "tutorial"] text
  then ["educational"]
  else ["faith"].

Definition plain (v : string) : SF.Text :=
  {| SF.value := v; SF.languages := None |}.

(** The play id: the digits after "/play/" in the URL of the first
    video, or else the id of the item. *)
Definition play_id_of (item : DP.Item) (i : string) : string :=
  match DP.content item with
  | Some c =>
      match DP.videos c with
      | Some (v :: _) =>
          let video_url := get (DP.url v) "" in
          match search_play_digits video_url with
          | Some digits => digits
          | None => i
          end
      | _ => i
      end
  | None => i
  end.

(** [item.get("content", {}).get("duration", 0)], then the replacement
    of [None] and of zero by 1. *)
Definition duration_of (item : DP.Item) : Z :=
  let duration :=
    get (DP.duration (get (DP.content item) DP.empty_content)) (JNum 0) in
  match duration with
  | JNull => 1
  | JNum n => if n =? 0 then 1 else n
  end.

(** The tags comprehension. *)
Definition short_tags (tags : list string) : list string :=
  map (slice_to 20)
      (filter (fun t => truthy t && (0 <? len (strip_space t))) tags).

(** [convert_item(item, item_type)] *)
Definition convert_item (item : DP.Item) (item_type : string)
  : result SF.Asset :=
  i <- subscript "id" (DP.id item) ;;
  let play_id := play_id_of item i in
  let duration := duration_of item in
  let asset_type :=
    if (item_type =? "shortform")%string then "shortform"
    else if duration >? 900 then "movie"
    else "shortform" in
  let title := slice_to 200 (or_else (get (DP.title item) "") "Untitled") in
  let short_desc :=
    slice_to 200 (or_else (get (DP.shortDescription item) "") title) in
  let long_desc :=
    slice_to 500 (or_else (get (DP.longDescription item) "") short_desc) in
  let genres :=
    classify_content title short_desc (get (DP.tags item) []) duration in
  let tags := short_tags (get (DP.tags item) []) in
  let thumbnail := get (DP.thumbnail item) "" in
  let images :=
    if truthy thumbnail
    then [{| SF.image_type := "main"; SF.url := thumbnail |}]
    else [] in
  i' <- subscript "id" (DP.id item) ;;
  Ok {| SF.id := i';
        SF.type := asset_type;
        SF.titles := [plain title];
        SF.shortDescriptions := [plain short_desc];
        SF.longDescriptions := Some [plain long_desc];
        SF.releaseDate := get (DP.releaseDate item) "2025-01-01";
        SF.genres := genres;
        SF.tags := Some (match tags with [] => ["faith"] | _ => tags end);
        SF.advisoryRatings :=
          [{| SF.source := "USA_PR"; SF.rating_value := "TV-G" |}];
        SF.images := images;
        SF.durationInSeconds := duration;
        SF.content :=
          {| SF.playOptions :=
               [{| SF.license := "free"; SF.quality := "hd";
                   SF.playId := play_id |}] |} |}.

(** *** The batch driver [main], without its file and console output *)

(** The two loops of [main], movies first: no exception is caught, so
    the first record that fails ends the run. *)
Definition convert_feed (data : DP.Feed) : result (list SF.Asset) :=
  let movies := get (DP.movies data) [] in
  ms <- for_each (fun item => convert_item item "movie") movies ;;
  let shorts := get (DP.shortFormVideos data) [] in
  ss <- for_each (fun item => convert_item item "shortform") shorts ;;
  Ok (ms ++ ss)%list.

(** The document [main] writes. *)
Definition search_feed (data : DP.Feed) : result SF.Feed :=
  assets <- convert_feed data ;;
  Ok {| SF.version := "1";
        SF.defaultLanguage := "en";
        SF.defaultAvailabilityCountries := ["us"];
        SF.assets := assets |}.

End V2.

(** ** Auxiliary notions for the statements *)

(** The duration and the videos the source supplies. *)
Definition source_duration (item : DP.Item) : option JInt :=
  match DP.content item with
  | Some c => DP.duration c
  | None => None
  end.

Definition source_videos (item : DP.Item) : list DP.Video :=
  match DP.content item with
  | Some c => get (DP.videos c) []
  | None => []
  end.

(** The source duration is absent, [null], or a number that is not
    negative. *)
Definition duration_not_negative (item : DP.Item) : Prop :=
  forall n, source_duration item = Some (JNum n) -> 0 <= n.

(** The play option that the loop body of the first converter builds for
    [vid] when the item has the id [i]. *)
Definition play_option_with (i : string) (vid : DP.Video) : SF.PlayOption :=
  let url := get (DP.url vid) "" in
  {| SF.license := "free";
     SF.quality :=
       dict_get V1.quality_map (upper (get (DP.quality vid) "HD")) "hd";
     SF.playId :=
       if contains "/play/" url then last_piece (split "/play/" url)
       else i |}.

(** The source tiers of [quality_map]. *)
Definition tiers : list string := ["HD"; "SD"; "UHD"; "FHD"].

(** The play option [po] answers the video [vid] of an item with id [i]:
    the license is "free"; the quality is the lower-case form of the
    upper-cased source tier when that is one of the four tiers, and "hd"
    otherwise (a video without tier counts as "HD"); the play id is what
    follows the marker "/play/" in the URL, up to the end and without a
    further marker, and the id of the item when the URL has no marker (a
    video without URL counts as the empty URL). *)
Definition answers (i : string) (vid : DP.Video) (po : SF.PlayOption)
  : Prop :=
  let u := upper (get (DP.quality vid) "HD") in
  let url := get (DP.url vid) "" in
  SF.license po = "free" /\
  (In u tiers -> SF.quality po = lower u) /\
  (~ In u tiers -> SF.quality po = "hd") /\
  (contains "/play/" url = true ->
   SF.playId po = last_piece (split "/play/" url) /\
   (exists pre, url = pre ++ "/play/" ++ SF.playId po) /\
   contains "/play/" (SF.playId po) = false) /\
  (contains "/play/" url = false -> SF.playId po = i).

Definition synthetic_play_option (i : string) : SF.PlayOption :=
  {| SF.license := "free"; SF.quality := "hd"; SF.playId := i |}.

Definition default_rating : SF.AdvisoryRating :=
  {| SF.source := "USA_PR"; SF.rating_value := "TV-G" |}.

(** Every character of [s] satisfies [p]. *)
Fixpoint all_chars (p : ascii -> bool) (s : string) : bool :=
  match s with
  | EmptyString => true
  | String c s' => p c && all_chars p s'
  end.

(** The ids of the records that have one, in order. *)
Definition present_ids (items : list DP.Item) : list string :=
  flat_map (fun item => match DP.id item with
                        | Some i => [i]
                        | None => []
                        end) items.

(** The records without id. *)
Definition has_no_id (item : DP.Item) : bool :=
  match DP.id item with
  | Some _ => false
  | None => true
  end.

(** The records of a source document, movies first. *)
Definition feed_movies (feed : DP.Feed) : list DP.Item :=
  get (DP.movies feed) [].
Definition feed_shortforms (feed : DP.Feed) : list DP.Item :=
  get (DP.shortFormVideos feed) [].
Definition feed_items (feed : DP.Feed) : list DP.Item :=
  feed_movies feed ++ feed_shortforms feed.

(** The assets the first converter returns on the records of a
    collection, in order; a record on which it raises gives none. *)
Definition converted (kind : string) (items : list DP.Item)
  : list SF.Asset :=
  flat_map (fun item => match V1.convert_item item kind with
                        | Ok a => [a]
                        | Raise _ => []
                        end) items.

(** The records on which the first converter raises. *)
Definition raises (kind : string) (item : DP.Item) : bool :=
  match V1.convert_item item kind with
  | Ok _ => false
  | Raise _ => true
  end.

(** The records that have an id but no thumbnail, or an empty one. *)
Definition lacks_thumbnail (item : DP.Item) : bool :=
  negb (has_no_id item) && negb (truthy_str (DP.thumbnail item)).

(** The assets without image. *)
Definition no_image (a : SF.Asset) : bool :=
  match SF.images a with
  | [] => true
  | _ => false
  end.

(** The titles and short descriptions of [a] have at most 200
    characters each and its duration is not zero: what the validation
    loop looks for. *)
Definition within_limits (a : SF.Asset) : Prop :=
  Forall (fun t => len (SF.value t) <= 200) (SF.titles a) /\
  Forall (fun t => len (SF.value t) <= 200) (SF.shortDescriptions a) /\
  SF.durationInSeconds a <> 0.

(** The line the first driver prints for a record without id. *)
Definition error_line (kind : string) : string :=
  "  ERROR " ++ kind ++ " ?: 'id'".

(** The keywords of the first bucket of [classify_content]. *)
Definition faith_words : list string :=
  ["church"; "sermon"; "bible"; "pastor"; "worship"; "prayer";
   "gospel"; "praise"; "ministry"; "missionary"; "baptist";
   "pastoral"; "deacon"; "sunday"; "galilee"; "scripture";
   "christmas eve"; "easter"; "revival"].

(** ** Sample records *)

(** A source document made of two movies. *)
Definition two_movies (m1 m2 : DP.Item) : DP.Feed :=
  {| DP.providerName := None;
     DP.movies := Some [m1; m2];
     DP.shortFormVideos := None |}.

Definition sample_feed : DP.Feed :=
  {| DP.providerName := Some "KMGI";
     DP.movies := Some [DP.only_id "m1"];
     DP.shortFormVideos := Some [DP.only_id "s1"; DP.only_id "s2"] |}.


Definition with_content (i : string) (c : DP.Content) : DP.Item :=
  {| DP.id := Some i; DP.title := None; DP.shortDescription := None;
     DP.longDescription := None; DP.releaseDate := None; DP.genres := None;
     DP.tags := None; DP.thumbnail := None; DP.rating := None;
     DP.content := Some c |}.

Definition with_duration (i : string) (d : Z) : DP.Item :=
  with_content i {| DP.videos := None; DP.duration := Some (JNum d) |}.

Definition with_videos (i : string) (vs : list DP.Video) : DP.Item :=
  with_content i {| DP.videos := Some vs; DP.duration := None |}.

Definition video (u q : string) : DP.Video :=
  {| DP.url := Some u; DP.quality := Some q; DP.video_duration := None |}.

Definition with_tags (i : string) (ts : list string) : DP.Item :=
  {| DP.id := Some i; DP.title := None; DP.shortDescription := None;
     DP.longDescription := None; DP.releaseDate := None; DP.genres := None;
     DP.tags := Some ts; DP.thumbnail := None; DP.rating := None;
     DP.content := None |}.

Definition without_id : DP.Item :=
  {| DP.id := None; DP.title := Some "A title"; DP.shortDescription := None;
     DP.longDescription := None; DP.releaseDate := None; DP.genres := None;
     DP.tags := None; DP.thumbnail := None; DP.rating := None;
     DP.content := None |}.

(** [c * n] for a one-character string [c]. *)
Fixpoint replicate (n : nat) (c : ascii) : string :=
  match n with
  | O => EmptyString
  | S n' => String c (replicate n' c)
  end.

(** The item of Scenario A. *)
Definition scenario_a : DP.Item :=
  {| DP.id := Some "abc123";
     DP.title := Some (replicate 250 "A"%char);
     DP.shortDescription := None; DP.longDescription := None;
     DP.releaseDate := None; DP.genres := Some ["Drama"];
     DP.tags := None; DP.thumbnail := None; DP.rating := None;
     DP.content :=
       Some {| DP.videos :=
                 Some [{| DP.url := Some "https://x/play/999";
                          DP.quality := Some "HD";
                          DP.video_duration := Some 1200 |}];
               DP.duration := None |} |}.

(** An id of 51 characters. *)
Definition long_id : string :=
  "012345678901234567890123456789012345678901234567890".

(** [s] between quotation marks. *)
Definition quoted (s : string) : string :=
  String dquote (s ++ String dquote EmptyString).

(** The tag list of Scenario C. *)
Definition scenario_c_tags : list string :=
  [" " ++ quoted "sports" ++ " ";
   "";
   "  " ++ quoted "a-very-long-tag-name-exceeding-twenty" ++ " "].

(** ** Facts about the string primitives *)

Lemma take_length (n : nat) (s : string) :
  String.length (take n s) = Nat.min n (String.length s).
Proof.
  revert s; induction n as [|n IH]; intros [|c s]; simpl; auto.
Qed.

Lemma take_all (n : nat) (s : string) :
  (String.length s <= n)%nat -> take n s = s.
Proof.
  revert s; induction n as [|n IH]; intros [|c s]; simpl; intros H;
    try reflexivity; try lia.
  f_equal. apply IH. lia.
Qed.

Lemma app_length (s t : string) :
  String.length (s ++ t) = (String.length s + String.length t)%nat.
Proof. induction s as [|c s IH]; simpl; auto. Qed.

Lemma take_app (n : nat) (s t : string) :
  (n <= String.length s)%nat -> take n (s ++ t) = take n s.
Proof.
  revert s; induction n as [|n IH]; intros [|c s]; simpl; intros H;
    try reflexivity; try lia.
  f_equal. apply IH. lia.
Qed.

Lemma take_take (n : nat) (s : string) : take n (take n s) = take n s.
Proof.
  apply take_all. rewrite take_length. lia.
Qed.

Lemma slice_to_nonneg (k : Z) (s : string) :
  0 <= k -> slice_to k s = take (Z.to_nat k) s.
Proof.
  intros H. unfold slice_to. apply Z.leb_le in H. now rewrite H.
Qed.

Lemma slice_to_neg (k : Z) (s : string) :
  k < 0 -> slice_to k s = take (String.length s - Z.to_nat (- k)) s.
Proof.
  intros H. unfold slice_to. apply Z.leb_gt in H. now rewrite H.
Qed.

Lemma endswith_app (s t : string) : endswith (s ++ t) t = true.
Proof.
  induction s as [|c s IH]; simpl.
  - destruct t as [|a t]; [reflexivity|].
    cbn [endswith]. now rewrite String.eqb_refl.
  - rewrite IH. apply orb_true_r.
Qed.

(** ** Truncation *)

Lemma truncate_short (s : string) (L : Z) :
  len s <= L -> V1.truncate s L = s.
Proof.
  intros H. unfold V1.truncate.
  destruct (negb (truthy s)); [reflexivity|].
  apply Z.leb_le in H. now rewrite H.
Qed.

Lemma truncate_long (s : string) (L : Z) :
  L < len s -> 0 <= L -> V1.truncate s L = slice_to (L - 3) s ++ "...".
Proof.
  intros H H0. unfold V1.truncate.
  destruct s as [|c s]; [unfold len in H; simpl in H; lia|].
  simpl negb. cbv iota.
  apply Z.leb_gt in H. now rewrite H.
Qed.

Lemma truncate_bound (s : string) (L : Z) :
  3 <= L -> len (V1.truncate s L) <= L.
Proof.
  intros HL.
  destruct (Z.le_gt_cases (len s) L) as [H|H].
  - now rewrite truncate_short.
  - rewrite truncate_long by lia.
    unfold len, slice_to in *.
    replace (0 <=? L - 3) with true by (symmetry; apply Z.leb_le; lia).
    rewrite app_length, take_length. simpl. lia.
Qed.

(** C4 as stated fails when the limit is below 3: the cut position
    [max_len - 3] is then negative and counts from the end of the text. *)
Lemma truncate_small_limit_cex :
  ~ (forall (s : string) (L : Z), len (V1.truncate s L) <= L).
Proof.
  intros H. specialize (H "abcdef" 2). vm_compute in H. now apply H.
Qed.

(** C4 (amended): for every string [s] and every limit [L >= 3],
    [truncate s L] has length at most [L]; when [len s <= L] it is [s];
    otherwise it is the first [L - 3] characters of [s] followed by "...",
    so it ends with "..." and its first [L - 3] characters are those
    of [s]. *)
Theorem truncate_correct (s : string) (L : Z) :
  3 <= L ->
  len (V1.truncate s L) <= L /\
  (len s <= L -> V1.truncate s L = s) /\
  (L < len s ->
     V1.truncate s L = slice_to (L - 3) s ++ "..." /\
     endswith (V1.truncate s L) "..." = true /\
     slice_to (L - 3) (V1.truncate s L) = slice_to (L - 3) s /\
     len (slice_to (L - 3) s) = L - 3).
Proof.
  intros HL. split; [now apply truncate_bound|].
  split; [apply truncate_short|].
  intros H. rewrite truncate_long by lia.
  split; [reflexivity|]. split; [apply endswith_app|].
  unfold slice_to, len in *.
  replace (0 <=? L - 3) with true by (symmetry; apply Z.leb_le; lia).
  split.
  - rewrite take_app by (rewrite take_length; lia). apply take_take.
  - rewrite take_length. lia.
Qed.

Lemma truncate_correct_witness :
  3 <= 5 /\ len (V1.truncate "abcdefgh" 5) <= 5.
Proof.
  split; [lia|]. apply (truncate_correct "abcdefgh" 5). lia.
Defined.

(** C9 as stated fails for the limits 1 and 2 (and the negative ones):
    a second pass cuts the dots the first pass appended. *)
Lemma truncate_idempotent_cex :
  V1.truncate (V1.truncate "abcdef" 2) 2 <> V1.truncate "abcdef" 2.
Proof. vm_compute. discriminate. Qed.

(** C9 (amended): for every string [s] and every limit [L] with
    [L >= 3] or [L = 0], truncating twice is truncating once. *)
Theorem truncate_idempotent (s : string) (L : Z) :
  L = 0 \/ 3 <= L ->
  V1.truncate (V1.truncate s L) L = V1.truncate s L.
Proof.
  intros [->|HL].
  - destruct s as [|c s]; [reflexivity|].
    rewrite (truncate_long (String c s) 0) by (unfold len; simpl; lia).
    set (p := slice_to (0 - 3) (String c s)).
    assert (Hp : 0 < len (p ++ "..."))
      by (unfold len; rewrite app_length; simpl; lia).
    rewrite truncate_long by lia.
    f_equal. rewrite slice_to_neg by lia.
    rewrite app_length.
    replace (String.length p + String.length "..." - Z.to_nat (- (0 - 3)))%nat
      with (String.length p) by (simpl; lia).
    rewrite take_app by lia. apply take_all. lia.
  - apply truncate_short. now apply truncate_bound.
Qed.

Lemma truncate_idempotent_witness :
  (200 = 0 \/ 3 <= 200) /\
  V1.truncate (V1.truncate "abcdef" 200) 200 = V1.truncate "abcdef" 200.
Proof.
  split; [right; lia|]. apply (truncate_idempotent "abcdef" 200). right; lia.
Defined.

(** ** The conversions on a record that has an id *)

Lemma play_option_ok (item : DP.Item) (i : string) (vid : DP.Video) :
  DP.id item = Some i ->
  V1.play_option item vid = Ok (play_option_with i vid).
Proof.
  intros Hid. unfold V1.play_option, play_option_with. rewrite Hid.
  destruct (contains "/play/" (get (DP.url vid) "")); reflexivity.
Qed.

Lemma for_each_play_option (item : DP.Item) (i : string)
  (vids : list DP.Video) :
  DP.id item = Some i ->
  for_each (V1.play_option item) vids = Ok (map (play_option_with i) vids).
Proof.
  intros Hid. induction vids as [|v vs IH]; [reflexivity|].
  cbn [for_each map]. rewrite (play_option_ok item i v Hid), IH. reflexivity.
Qed.

(** The first converter returns on every record with an id, and this is
    the asset it returns. *)
Lemma v1_convert_item_ok (item : DP.Item) (i item_type : string) :
  DP.id item = Some i ->
  let title := V1.truncate (get (DP.title item) "Untitled") 200 in
  let short_desc :=
    V1.truncate (get (DP.shortDescription item) title) 200 in
  let long_desc := V1.truncate (get (DP.longDescription item) "") 500 in
  V1.convert_item item item_type =
  Ok {| SF.id := slice_to 50 i;
        SF.type := item_type;
        SF.titles := [V1.en title];
        SF.shortDescriptions := [V1.en short_desc];
        SF.longDescriptions :=
          if truthy long_desc then Some [V1.en long_desc] else None;
        SF.releaseDate := get (DP.releaseDate item) "2025-01-01";
        SF.genres := V1.validate_genres (get (DP.genres item) ["special"]);
        SF.tags :=
          match V1.clean_tags (get (DP.tags item) []) with
          | [] => None
          | cleaned => Some cleaned
          end;
        SF.advisoryRatings := V1.advisory_ratings item;
        SF.images :=
          if truthy_str (DP.thumbnail item)
          then [{| SF.image_type := "main";
                   SF.url := get (DP.thumbnail item) "" |}]
          else [];
        SF.durationInSeconds :=
          V1.duration_in_seconds (get (DP.content item) DP.empty_content);
        SF.content :=
          {| SF.playOptions :=
               match source_videos item with
               | [] => [synthetic_play_option i]
               | vids => map (play_option_with i) vids
               end |} |}.
Proof.
  intros Hid. cbv zeta. unfold V1.convert_item, source_videos.
  rewrite Hid. cbn [subscript bind].
  destruct (DP.thumbnail item) as [th|]; cbn [truthy_str];
    [destruct (truthy th)|]; cbn [subscript bind get];
    (destruct (DP.content item) as [c|]; cbn [get];
     [destruct (DP.videos c) as [[|v vs]|]|];
     cbn [truthy_list DP.videos DP.empty_content subscript bind get];
     try rewrite (for_each_play_option item i _ Hid);
     cbn [map bind];
     (destruct (DP.tags item) as [[|t ts]|];
      cbn [truthy_list subscript bind get];
      [reflexivity| |reflexivity];
      destruct (V1.clean_tags (t :: ts)); reflexivity)).
Qed.

(** The second converter returns on every record with an id, and this
    is the asset it returns. *)
Lemma v2_convert_item_ok (item : DP.Item) (i item_type : string) :
  DP.id item = Some i ->
  let duration := V2.duration_of item in
  let title := slice_to 200 (or_else (get (DP.title item) "") "Untitled") in
  let short_desc :=
    slice_to 200 (or_else (get (DP.shortDescription item) "") title) in
  let long_desc :=
    slice_to 500 (or_else (get (DP.longDescription item) "") short_desc) in
  let tags := V2.short_tags (get (DP.tags item) []) in
  V2.convert_item item item_type =
  Ok {| SF.id := i;
        SF.type :=
          if (item_type =? "shortform")%string then "shortform"
          else if duration >? 900 then "movie" else "shortform";
        SF.titles := [V2.plain title];
        SF.shortDescriptions := [V2.plain short_desc];
        SF.longDescriptions := Some [V2.plain long_desc];
        SF.releaseDate := get (DP.releaseDate item) "2025-01-01";
        SF.genres :=
          V2.classify_content title short_desc (get (DP.tags item) [])
            duration;
        SF.tags := Some (match tags with [] => ["faith"] | _ => tags end);
        SF.advisoryRatings := [default_rating];
        SF.images :=
          if truthy (get (DP.thumbnail item) "")
          then [{| SF.image_type := "main";
                   SF.url := get (DP.thumbnail item) "" |}]
          else [];
        SF.durationInSeconds := duration;
        SF.content :=
          {| SF.playOptions :=
               [{| SF.license := "free"; SF.quality := "hd";
                   SF.playId := V2.play_id_of item i |}] |} |}.
Proof.
  intros Hid. cbv zeta. unfold V2.convert_item. rewrite Hid. reflexivity.
Qed.

Lemma v1_convert_item_no_id (item : DP.Item) (item_type : string) :
  DP.id item = None ->
  V1.convert_item item item_type = Raise (KeyError "id").
Proof. intros Hid. unfold V1.convert_item. now rewrite Hid. Qed.

Lemma v2_convert_item_no_id (item : DP.Item) (item_type : string) :
  DP.id item = None ->
  V2.convert_item item item_type = Raise (KeyError "id").
Proof. intros Hid. unfold V2.convert_item. now rewrite Hid. Qed.

(** ** Mandatory fields *)

Lemma advisory_ratings_not_empty (item : DP.Item) :
  V1.advisory_ratings item <> [].
Proof.
  unfold V1.advisory_ratings.
  destruct (truthy_rating _); discriminate.
Qed.

Lemma v1_duration_positive (item : DP.Item) :
  duration_not_negative item ->
  1 <= V1.duration_in_seconds (get (DP.content item) DP.empty_content).
Proof.
  unfold duration_not_negative, source_duration, V1.duration_in_seconds.
  intros H. destruct (DP.content item) as [c|]; cbn [get]; [|simpl; lia].
  destruct (DP.duration c) as [[|n]|]; try lia.
  specialize (H n eq_refl).
  destruct (Z.eqb_spec n 0); lia.
Qed.

Lemma v2_duration_positive (item : DP.Item) :
  duration_not_negative item -> 1 <= V2.duration_of item.
Proof.
  unfold duration_not_negative, source_duration, V2.duration_of.
  intros H. destruct (DP.content item) as [c|]; cbn [get]; [|simpl; lia].
  destruct (DP.duration c) as [[|n]|]; cbn [get]; try (simpl; lia).
  specialize (H n eq_refl).
  destruct (Z.eqb_spec n 0); lia.
Qed.

(** C1 as stated fails on a negative source duration: both converters
    replace only a missing or zero duration and pass any other number
    through. *)
Lemma negative_duration_cex :
  (exists a, V1.convert_item (with_duration "x" (-5)) "movie" = Ok a /\
             SF.durationInSeconds a = -5) /\
  (exists a, V2.convert_item (with_duration "x" (-5)) "movie" = Ok a /\
             SF.durationInSeconds a = -5).
Proof.
  split; eexists; split; reflexivity.
Qed.

Lemma v1_duration_value (item : DP.Item) :
  let d := V1.duration_in_seconds (get (DP.content item) DP.empty_content) in
  (forall n, source_duration item = Some (JNum n) -> 0 < n -> d = n) /\
  (source_duration item = None \/ source_duration item = Some JNull \/
   source_duration item = Some (JNum 0) -> d = 60).
Proof.
  cbv zeta. unfold source_duration, V1.duration_in_seconds.
  destruct (DP.content item) as [c|]; cbn [get DP.duration DP.empty_content].
  - split.
    + intros n -> Hn. destruct (Z.eqb_spec n 0); [lia|reflexivity].
    + intros [-> | [-> | ->]]; reflexivity.
  - split; [discriminate|reflexivity].
Qed.

Lemma v2_duration_value (item : DP.Item) :
  (forall n, source_duration item = Some (JNum n) -> 0 < n ->
   V2.duration_of item = n) /\
  (source_duration item = None \/ source_duration item = Some JNull \/
   source_duration item = Some (JNum 0) -> V2.duration_of item = 1).
Proof.
  unfold source_duration, V2.duration_of.
  destruct (DP.content item) as [c|]; cbn [get DP.duration DP.empty_content].
  - split.
    + intros n -> Hn. cbn [get]. destruct (Z.eqb_spec n 0); [lia|reflexivity].
    + intros [-> | [-> | ->]]; reflexivity.
  - split; [discriminate|reflexivity].
Qed.

(** C1 (amended): for every source item that has an id, both
    converters return an asset whose [advisoryRatings] and
    [content.playOptions] are not empty -- whatever the rating, the
    videos and the duration of the source are, a negative duration
    included.  Its [durationInSeconds] is at least 1 whenever the source
    duration is missing, [null], zero or positive: it is the source
    duration when that is positive, and a missing, [null] or zero
    duration becomes 60 in the first converter and 1 in the second. *)
Theorem mandatory_fields_present (item : DP.Item) (i item_type : string) :
  DP.id item = Some i ->
  (exists a, V1.convert_item item item_type = Ok a /\
     SF.advisoryRatings a <> [] /\
     SF.playOptions (SF.content a) <> [] /\
     (duration_not_negative item -> 1 <= SF.durationInSeconds a) /\
     (forall n, source_duration item = Some (JNum n) -> 0 < n ->
      SF.durationInSeconds a = n) /\
     (source_duration item = None \/ source_duration item = Some JNull \/
      source_duration item = Some (JNum 0) -> SF.durationInSeconds a = 60)) /\
  (exists a, V2.convert_item item item_type = Ok a /\
     SF.advisoryRatings a <> [] /\
     SF.playOptions (SF.content a) <> [] /\
     (duration_not_negative item -> 1 <= SF.durationInSeconds a) /\
     (forall n, source_duration item = Some (JNum n) -> 0 < n ->
      SF.durationInSeconds a = n) /\
     (source_duration item = None \/ source_duration item = Some JNull \/
      source_duration item = Some (JNum 0) -> SF.durationInSeconds a = 1)).
Proof.
  intros Hid. split; eexists.
  - split; [apply (v1_convert_item_ok item i item_type Hid)|].
    cbn [SF.advisoryRatings SF.playOptions SF.content SF.durationInSeconds].
    split; [apply advisory_ratings_not_empty|].
    split; [destruct (source_videos item); discriminate|].
    split; [apply v1_duration_positive|apply v1_duration_value].
  - split; [apply (v2_convert_item_ok item i item_type Hid)|].
    cbn [SF.advisoryRatings SF.playOptions SF.content SF.durationInSeconds].
    split; [discriminate|]. split; [discriminate|].
    split; [apply v2_duration_positive|apply v2_duration_value].
Qed.

Lemma mandatory_fields_present_witness :
  (exists a, V1.convert_item (with_duration "x" 0) "movie" = Ok a /\
             SF.advisoryRatings a <> [] /\
             SF.playOptions (SF.content a) <> [] /\
             1 <= SF.durationInSeconds a /\
             SF.durationInSeconds a = 60) /\
  (exists a, V2.convert_item (with_duration "x" (-5)) "movie" = Ok a /\
             SF.advisoryRatings a <> [] /\
             SF.playOptions (SF.content a) <> []).
Proof.
  assert (Hd : duration_not_negative (with_duration "x" 0))
    by (intros n H; injection H as <-; lia).
  destruct (mandatory_fields_present (with_duration "x" 0) "x" "movie"
              eq_refl)
    as [[a1 [H1 [R1 [P1 [D1 [_ Z1]]]]]] _].
  destruct (mandatory_fields_present (with_duration "x" (-5)) "x" "movie"
              eq_refl)
    as [_ [a2 [H2 [R2 [P2 _]]]]].
  split; [exists a1|exists a2]; repeat split; auto.
Defined.

(** ** Identifier *)

Lemma slice_to_bound (k : Z) (s : string) :
  0 <= k -> len (slice_to k s) <= k.
Proof.
  intros H. rewrite slice_to_nonneg by assumption.
  unfold len. rewrite take_length. lia.
Qed.

(** The first converter keeps the first 50 characters of the id. *)
Lemma v1_id_bound (item : DP.Item) (i item_type : string) :
  DP.id item = Some i ->
  exists a, V1.convert_item item item_type = Ok a /\
            SF.id a = slice_to 50 i /\ len (SF.id a) <= 50 /\
            (len i <= 50 -> SF.id a = i).
Proof.
  intros Hid. eexists.
  split; [apply (v1_convert_item_ok item i item_type Hid)|].
  cbn [SF.id]. split; [reflexivity|].
  split; [apply slice_to_bound; lia|].
  intros H. rewrite slice_to_nonneg by lia. apply take_all.
  unfold len in H. lia.
Qed.

(** C2: the second converter copies the id as it is; an id of 51
    characters reaches the asset with its 51 characters, above the bound
    of 50 that the first converter enforces. *)
Theorem v2_id_not_truncated :
  exists a, V2.convert_item (DP.only_id long_id) "movie" = Ok a /\
            SF.id a = long_id /\ len (SF.id a) = 51.
Proof.
  eexists. split; [reflexivity|]. split; reflexivity.
Qed.

(** ** Asset type *)

(** C5 as stated fails in the second converter: an item declared a
    movie whose duration is not above 900 seconds becomes a short form. *)
Lemma declared_type_cex :
  exists a, V2.convert_item (with_duration "x" 600) "movie" = Ok a /\
            SF.type a <> "movie".
Proof.
  eexists. split; [reflexivity|]. simpl. discriminate.
Qed.

(** C5 (amended): for every source item with an id, the first converter
    returns an asset whose type is the declared type, never looking at
    the duration.  The second converter returns type "shortform" when
    that is the declared type; for every other declared type, "movie"
    included, the asset is a "movie" when its duration is strictly above
    900 seconds and a "shortform" otherwise. *)
Theorem asset_type_rule (item : DP.Item) (i item_type : string) :
  DP.id item = Some i ->
  (exists a, V1.convert_item item item_type = Ok a /\
             SF.type a = item_type) /\
  (exists a, V2.convert_item item item_type = Ok a /\
             (item_type = "shortform" -> SF.type a = "shortform") /\
             (item_type <> "shortform" -> 900 < SF.durationInSeconds a ->
              SF.type a = "movie") /\
             (item_type <> "shortform" -> SF.durationInSeconds a <= 900 ->
              SF.type a = "shortform")).
Proof.
  intros Hid. split; eexists.
  - split; [apply (v1_convert_item_ok item i item_type Hid)|]. reflexivity.
  - split; [apply (v2_convert_item_ok item i item_type Hid)|].
    cbn [SF.type SF.durationInSeconds].
    destruct (String.eqb_spec item_type "shortform") as [E|E].
    + repeat split; intros; congruence.
    + destruct (Z.gtb_spec (V2.duration_of item) 900);
        repeat split; intros; solve [congruence | lia | reflexivity].
Qed.

Lemma asset_type_rule_witness :
  exists a, V2.convert_item (with_duration "x" 1200) "movie" = Ok a /\
            SF.type a = "movie".
Proof.
  destruct (asset_type_rule (with_duration "x" 1200) "x" "movie" eq_refl)
    as [_ [a [Ha [_ [Hm _]]]]].
  exists a. split; [exact Ha|].
  apply Hm; [discriminate|].
  injection Ha as <-. vm_compute. reflexivity.
Defined.

(** ** Release date *)

(** C10: for every source item with an id, both converters return an
    asset whose [releaseDate] is the literal "2025-01-01" when the source
    has no [releaseDate], and the source's [releaseDate], unchanged and
    unchecked, when it has one. *)
Theorem release_date_default (item : DP.Item) (i item_type : string) :
  DP.id item = Some i ->
  exists a1 a2,
    V1.convert_item item item_type = Ok a1 /\
    V2.convert_item item item_type = Ok a2 /\
    (DP.releaseDate item = None ->
     SF.releaseDate a1 = "2025-01-01" /\ SF.releaseDate a2 = "2025-01-01") /\
    (forall d, DP.releaseDate item = Some d ->
     SF.releaseDate a1 = d /\ SF.releaseDate a2 = d).
Proof.
  intros Hid. eexists. eexists.
  split; [apply (v1_convert_item_ok item i item_type Hid)|].
  split; [apply (v2_convert_item_ok item i item_type Hid)|].
  cbn [SF.releaseDate]. split.
  - intros ->. split; reflexivity.
  - intros d ->. split; reflexivity.
Qed.

Lemma release_date_default_witness :
  exists a1 a2,
    V1.convert_item (DP.only_id "x") "movie" = Ok a1 /\
    V2.convert_item (DP.only_id "x") "movie" = Ok a2 /\
    SF.releaseDate a1 = "2025-01-01" /\ SF.releaseDate a2 = "2025-01-01".
Proof.
  destruct (release_date_default (DP.only_id "x") "x" "movie" eq_refl)
    as [a1 [a2 [H1 [H2 [Hn _]]]]].
  exists a1, a2. split; [exact H1|]. split; [exact H2|].
  apply Hn. reflexivity.
Defined.

(** ** Genres *)

Lemma mem_In (x : string) (S : list string) : mem x S = true <-> In x S.
Proof.
  unfold mem. rewrite existsb_exists. split.
  - intros [y [Hy E]]. apply String.eqb_eq in E. now subst.
  - intros H. exists x. split; [assumption|apply String.eqb_refl].
Qed.

(** The canonical set is stored in lower case. *)
Lemma VALID_GENRES_lower (g : string) : In g VALID_GENRES -> lower g = g.
Proof.
  assert (H : forallb (fun g => (lower g =? g)%string) VALID_GENRES = true)
    by (vm_compute; reflexivity).
  rewrite forallb_forall in H. intros Hg.
  apply String.eqb_eq. now apply H.
Qed.

Lemma validate_genres_filter (genres : list string) :
  let kept := filter (fun g => mem (lower g) VALID_GENRES) genres in
  (kept = [] -> V1.validate_genres genres = ["special"]) /\
  (kept <> [] -> V1.validate_genres genres = map lower kept).
Proof.
  cbv zeta. unfold V1.validate_genres.
  destruct (filter _ genres) as [|g gs]; split; intros H;
    congruence || reflexivity.
Qed.

Lemma validate_genres_valid (genres : list string) :
  V1.validate_genres genres <> [] /\
  Forall (fun g => In g VALID_GENRES) (V1.validate_genres genres).
Proof.
  unfold V1.validate_genres.
  destruct (filter _ genres) as [|g gs] eqn:E.
  - split; [discriminate|]. constructor; [|constructor].
    apply mem_In. vm_compute. reflexivity.
  - split; [discriminate|]. rewrite <- E.
    apply Forall_forall. intros x Hx.
    apply in_map_iff in Hx. destruct Hx as [y [<- Hy]].
    apply filter_In in Hy. now apply mem_In.
Qed.

Lemma classify_content_valid (title description : string)
  (tags : list string) (duration_secs : Z) :
  exists g, V2.classify_content title description tags duration_secs = [g] /\
            In g VALID_GENRES.
Proof.
  unfold V2.classify_content.
  repeat match goal with
         | |- context [if V2.any_in ?ws ?t then _ else _] =>
             destruct (V2.any_in ws t)
         end;
    eexists; (split; [reflexivity|]); apply mem_In; vm_compute; reflexivity.
Qed.

(** C3: for every source item with an id, both converters return an
    asset whose [genres] list is not empty and holds only members of the
    canonical set, each in lower case.  In the first converter (the
    filter strategy) the list is made of the source genres whose
    lower-case form is in the set, lower-cased and in the order of the
    source, and it is the single default ["special"] when no source genre
    passes (a source without genres counts as ["special"]). *)
Theorem genres_total (item : DP.Item) (i item_type : string) :
  DP.id item = Some i ->
  (exists a, V1.convert_item item item_type = Ok a /\
     SF.genres a <> [] /\
     Forall (fun g => In g VALID_GENRES /\ lower g = g) (SF.genres a) /\
     let kept := filter (fun g => mem (lower g) VALID_GENRES)
                        (get (DP.genres item) ["special"]) in
     (kept = [] -> SF.genres a = ["special"]) /\
     (kept <> [] -> SF.genres a = map lower kept)) /\
  (exists a, V2.convert_item item item_type = Ok a /\
     SF.genres a <> [] /\
     Forall (fun g => In g VALID_GENRES /\ lower g = g) (SF.genres a)).
Proof.
  intros Hid. split; eexists.
  - split; [apply (v1_convert_item_ok item i item_type Hid)|].
    cbn [SF.genres].
    destruct (validate_genres_valid (get (DP.genres item) ["special"]))
      as [Hne Hall].
    split; [exact Hne|]. split; [|apply validate_genres_filter].
    eapply Forall_impl; [|exact Hall].
    intros g Hg. split; [exact Hg|now apply VALID_GENRES_lower].
  - split; [apply (v2_convert_item_ok item i item_type Hid)|].
    cbn [SF.genres].
    match goal with
    | |- context [V2.classify_content ?t ?d ?ts ?n] =>
        destruct (classify_content_valid t d ts n) as [g [-> Hg]]
    end.
    split; [discriminate|]. constructor; [|constructor].
    split; [exact Hg|now apply VALID_GENRES_lower].
Qed.

Lemma genres_total_witness :
  exists a, V1.convert_item (DP.only_id "x") "movie" = Ok a /\
            SF.genres a <> [].
Proof.
  destruct (genres_total (DP.only_id "x") "x" "movie" eq_refl)
    as [[a [Ha [Hne _]]] _].
  exists a. split; [exact Ha|exact Hne].
Defined.

(** ** Stripping *)

Lemma app_empty_r (s : string) : s ++ "" = s.
Proof. induction s as [|c s IH]; simpl; congruence. Qed.

Lemma app_assoc_str (s t u : string) : (s ++ t) ++ u = s ++ t ++ u.
Proof. induction s as [|c s IH]; simpl; congruence. Qed.

Lemma lstrip_spec (p : ascii -> bool) (s : string) :
  exists pre, s = pre ++ lstrip p s /\ all_chars p pre = true.
Proof.
  induction s as [|c s [pre [E A]]]; [now exists ""|].
  simpl. destruct (p c) eqn:Hc.
  - exists (String c pre). simpl. rewrite Hc, A. now rewrite <- E.
  - now exists "".
Qed.

Lemma rstrip_spec (p : ascii -> bool) (s : string) :
  exists suf, s = rstrip p s ++ suf /\ all_chars p suf = true.
Proof.
  induction s as [|c s [suf [E A]]]; [now exists ""|].
  simpl. destruct (rstrip p s) as [|d r] eqn:R; simpl.
  - destruct (p c) eqn:Hc.
    + exists (String c s). split; [reflexivity|].
      simpl. rewrite Hc. simpl in E. now rewrite E.
    + exists suf. split; [|exact A]. simpl in E. now rewrite E.
  - exists suf. split; [|exact A]. now rewrite E.
Qed.

Lemma rstrip_cons (p : ascii -> bool) (c : ascii) (s : string) :
  rstrip p (String c s) =
  if negb (truthy (rstrip p s)) && p c then "" else String c (rstrip p s).
Proof. reflexivity. Qed.

Lemma lstrip_fixed (p : ascii -> bool) (s : string) :
  lstrip p (lstrip p s) = lstrip p s.
Proof.
  induction s as [|c s IH]; [reflexivity|].
  simpl. destruct (p c) eqn:Hc; [exact IH|]. simpl. now rewrite Hc.
Qed.

Lemma rstrip_fixed (p : ascii -> bool) (s : string) :
  rstrip p (rstrip p s) = rstrip p s.
Proof.
  induction s as [|c s IH]; [reflexivity|].
  rewrite (rstrip_cons p c s).
  destruct (rstrip p s) as [|d r] eqn:R; cbn [truthy negb andb].
  - destruct (p c) eqn:Hc; [reflexivity|]. simpl. now rewrite Hc.
  - rewrite rstrip_cons, IH. reflexivity.
Qed.

Lemma lstrip_rstrip (p : ascii -> bool) (s : string) :
  lstrip p s = s -> lstrip p (rstrip p s) = rstrip p s.
Proof.
  destruct s as [|c s]; [reflexivity|].
  simpl. destruct (p c) eqn:Hc.
  - intros E. exfalso.
    destruct (lstrip_spec p s) as [pre [E' _]].
    rewrite E in E'. apply (f_equal String.length) in E'.
    rewrite app_length in E'. simpl in E'. lia.
  - intros _. rewrite andb_false_r. simpl. now rewrite Hc.
Qed.

(** What [strip] does: it removes a prefix and a suffix made of the
    characters to strip, and what it leaves neither starts nor ends with
    such a character. *)
Lemma strip_spec (p : ascii -> bool) (s : string) :
  exists pre suf,
    s = pre ++ strip p s ++ suf /\
    all_chars p pre = true /\ all_chars p suf = true /\
    lstrip p (strip p s) = strip p s /\ rstrip p (strip p s) = strip p s.
Proof.
  unfold strip.
  destruct (lstrip_spec p s) as [pre [E1 A1]].
  destruct (rstrip_spec p (lstrip p s)) as [suf [E2 A2]].
  exists pre, suf. split; [now rewrite <- E2|].
  split; [exact A1|]. split; [exact A2|].
  split; [apply lstrip_rstrip, lstrip_fixed|apply rstrip_fixed].
Qed.

(** ** Tags *)

Lemma clean_tags_bound (tags : list string) :
  Forall (fun t => 0 < len t <= 20) (V1.clean_tags tags).
Proof.
  unfold V1.clean_tags. apply Forall_forall. intros x Hx.
  apply in_map_iff in Hx. destruct Hx as [t [<- Ht]].
  apply filter_In in Ht. destruct Ht as [_ Ht].
  split; [|apply slice_to_bound; lia].
  destruct (strip_space (strip_quote t)); [discriminate|].
  unfold len. simpl. lia.
Qed.

Lemma short_tags_bound (tags : list string) :
  Forall (fun t => 0 < len t <= 20) (V2.short_tags tags).
Proof.
  unfold V2.short_tags. apply Forall_forall. intros x Hx.
  apply in_map_iff in Hx. destruct Hx as [t [<- Ht]].
  apply filter_In in Ht. destruct Ht as [_ Ht].
  split; [|apply slice_to_bound; lia].
  destruct t; [discriminate|]. unfold len. simpl. lia.
Qed.

Lemma lstrip_fixed_head (p : ascii -> bool) (c : ascii) (s : string) :
  lstrip p (String c s) = String c s -> p c = false.
Proof.
  simpl. destruct (p c); [|reflexivity]. intros E. exfalso.
  destruct (lstrip_spec p s) as [pre [E' _]].
  rewrite E in E'. apply (f_equal String.length) in E'.
  rewrite app_length in E'. simpl in E'. lia.
Qed.

Lemma lstrip_id_cons (p : ascii -> bool) (c : ascii) (s : string) :
  p c = false -> lstrip p (String c s) = String c s.
Proof. intros H. simpl. now rewrite H. Qed.

Lemma rstrip_app_one (p : ascii -> bool) (s : string) (c : ascii) :
  p c = true -> rstrip p (s ++ String c "") = rstrip p s.
Proof.
  intros Hc. induction s as [|a s IH].
  - simpl. now rewrite Hc.
  - change (String a s ++ String c "") with (String a (s ++ String c "")).
    rewrite !rstrip_cons, IH. reflexivity.
Qed.

(** Stripping the quotation marks of a text written between quotation
    marks gives the text back, when the text itself neither starts nor
    ends with a quotation mark. *)
Lemma strip_quote_quoted (s : string) :
  lstrip (fun c => Ascii.eqb c dquote) s = s ->
  rstrip (fun c => Ascii.eqb c dquote) s = s ->
  strip_quote (quoted s) = s.
Proof.
  intros L R. unfold strip_quote, strip, quoted.
  cbn [lstrip]. rewrite Ascii.eqb_refl.
  assert (E : lstrip (fun c => Ascii.eqb c dquote) (s ++ String dquote "")
              = match s with
                | EmptyString => EmptyString
                | _ => s ++ String dquote ""
                end).
  { destruct s as [|a s]; [reflexivity|].
    apply lstrip_fixed_head in L.
    change (String a s ++ String dquote "")
      with (String a (s ++ String dquote "")).
    now apply lstrip_id_cons. }
  rewrite E. destruct s as [|a s]; [reflexivity|].
  rewrite rstrip_app_one by apply Ascii.eqb_refl. exact R.
Qed.

(** C7 as stated fails on its own example.  The first converter strips
    quotation marks before white space, so the marks that stand inside
    the white space stay, and it keeps 20 characters, not the 23 of the
    expected "a-very-long-tag-name-ex".  The second converter strips
    nothing. *)
Lemma scenario_c_cex :
  (exists a, V1.convert_item (with_tags "x" scenario_c_tags) "movie" = Ok a /\
     SF.tags a = Some [quoted "sports"; String dquote "a-very-long-tag-nam"] /\
     SF.tags a <> Some ["sports"; "a-very-long-tag-name-ex"]) /\
  (exists a, V2.convert_item (with_tags "x" scenario_c_tags) "movie" = Ok a /\
     SF.tags a = Some [" " ++ quoted "sports" ++ " ";
                       "  " ++ String dquote "a-very-long-tag-n"] /\
     SF.tags a <> Some ["sports"; "a-very-long-tag-name-ex"]).
Proof.
  split; eexists; (split; [reflexivity|]); split;
    solve [reflexivity | vm_compute; discriminate].
Qed.

Lemma len_pos_truthy (s : string) : (0 <? len s) = truthy s.
Proof. destruct s; reflexivity. Qed.

Lemma truthy_strip_space (t : string) :
  truthy t && (0 <? len (strip_space t)) = truthy (strip_space t).
Proof.
  rewrite len_pos_truthy. destruct t; reflexivity.
Qed.

(** C7 (amended): for every source item with an id and source tag list
    [src] (empty when the source has no tags):
    - the first converter removes from each tag the quotation marks at its
      two ends, so that what is left neither starts nor ends with a
      quotation mark, and then the white space at the two ends of what is
      left, so that the result neither starts nor ends with white space;
      it drops the tags that become empty and keeps the first 20
      characters of the others, in order; quotation marks that stand
      inside the white space stay; the [tags] key is absent when nothing
      is left;
    - the second converter drops the tags that are empty or white space
      only and keeps the first 20 characters of the others, unstripped;
      when nothing is left the tags are ["faith"];
    - every output tag has between 1 and 20 characters;
    - a tag written between quotation marks loses them, also when white
      space stands inside the marks; on the list of Scenario C, where the
      white space stands outside, the first converter yields the two tags
      ["sports"] with its quotation marks and the first 20 characters
      of the quoted long tag. *)
Theorem tags_cleaned (item : DP.Item) (i item_type : string) :
  DP.id item = Some i ->
  let src := get (DP.tags item) [] in
  (exists a, V1.convert_item item item_type = Ok a /\
     let cleaned :=
       map (fun t => slice_to 20 (strip_space (strip_quote t)))
           (filter (fun t => truthy (strip_space (strip_quote t))) src) in
     SF.tags a = match cleaned with [] => None | _ => Some cleaned end /\
     Forall (fun t => 0 < len t <= 20) cleaned) /\
  (exists a, V2.convert_item item item_type = Ok a /\
     let kept :=
       map (slice_to 20) (filter (fun t => truthy (strip_space t)) src) in
     SF.tags a = Some (match kept with [] => ["faith"] | _ => kept end) /\
     Forall (fun t => 0 < len t <= 20) kept) /\
  (forall t, exists q1 w1 w2 q2,
     t = q1 ++ (w1 ++ strip_space (strip_quote t) ++ w2) ++ q2 /\
     all_chars (fun c => Ascii.eqb c dquote) q1 = true /\
     all_chars (fun c => Ascii.eqb c dquote) q2 = true /\
     all_chars isspace w1 = true /\ all_chars isspace w2 = true /\
     lstrip isspace (strip_space (strip_quote t)) =
       strip_space (strip_quote t) /\
     rstrip isspace (strip_space (strip_quote t)) =
       strip_space (strip_quote t) /\
     strip_quote t = w1 ++ strip_space (strip_quote t) ++ w2 /\
     lstrip (fun c => Ascii.eqb c dquote) (strip_quote t) = strip_quote t /\
     rstrip (fun c => Ascii.eqb c dquote) (strip_quote t) = strip_quote t) /\
  (forall s,
     lstrip (fun c => Ascii.eqb c dquote) s = s ->
     rstrip (fun c => Ascii.eqb c dquote) s = s ->
     strip_quote (quoted s) = s) /\
  V1.clean_tags [quoted "sports"; quoted " local news "] =
    ["sports"; "local news"] /\
  V1.clean_tags scenario_c_tags =
    [quoted "sports"; String dquote "a-very-long-tag-nam"].
Proof.
  intros Hid src. split; [|split; [|split; [|split; [|split]]]].
  - eexists. split; [apply (v1_convert_item_ok item i item_type Hid)|].
    cbn [SF.tags]. fold src. fold (V1.clean_tags src).
    split; [destruct (V1.clean_tags src); reflexivity|].
    apply clean_tags_bound.
  - eexists. split; [apply (v2_convert_item_ok item i item_type Hid)|].
    cbn [SF.tags]. fold src.
    assert (E : V2.short_tags src =
                map (slice_to 20)
                    (filter (fun t => truthy (strip_space t)) src)).
    { unfold V2.short_tags. f_equal. apply filter_ext.
      intros t. apply truthy_strip_space. }
    rewrite <- E. split; [reflexivity|]. apply short_tags_bound.
  - intros t. unfold strip_space, strip_quote.
    destruct (strip_spec (fun c => Ascii.eqb c dquote) t)
      as [q1 [q2 [Eq [Aq1 [Aq2 [Lq Rq]]]]]].
    destruct (strip_spec isspace (strip (fun c => Ascii.eqb c dquote) t))
      as [w1 [w2 [Ew [Aw1 [Aw2 [L R]]]]]].
    exists q1, w1, w2, q2. rewrite <- Ew. auto 12.
  - apply strip_quote_quoted.
  - vm_compute. reflexivity.
  - vm_compute. reflexivity.
Qed.

Lemma tags_cleaned_witness :
  exists a, V1.convert_item (with_tags "x" scenario_c_tags) "movie" = Ok a /\
            SF.tags a <> None.
Proof.
  destruct (tags_cleaned (with_tags "x" scenario_c_tags) "x" "movie" eq_refl)
    as [[a [Ha [Ht _]]] _].
  exists a. split; [exact Ha|]. rewrite Ht. vm_compute. discriminate.
Defined.

(** ** Splitting at a marker *)

Lemma prefix_drop (sep s : string) :
  prefix sep s = true -> s = sep ++ drop (String.length sep) s.
Proof.
  revert s. induction sep as [|a sep IH]; intros s H.
  - destruct s; reflexivity.
  - destruct s as [|b s]; [discriminate|]. simpl in H.
    destruct (ascii_dec a b) as [->|]; [|discriminate].
    simpl. f_equal. now apply IH.
Qed.

Lemma split_aux_skip (sep : string) (k : nat) (cur s : string) :
  (k <= String.length s)%nat ->
  split_aux sep k cur s = split_aux sep 0 cur (drop k s).
Proof.
  revert s. induction k as [|k IH]; intros s H.
  - destruct s; reflexivity.
  - destruct s as [|c s]; [simpl in H; lia|].
    simpl. apply IH. simpl in H. lia.
Qed.

Lemma split_aux_not_empty (sep : string) (s : string) :
  forall k cur, split_aux sep k cur s <> [].
Proof.
  induction s as [|c s IH]; intros k cur; [discriminate|].
  simpl. destruct k; [|apply IH].
  destruct (match sep with "" => _ | _ => _ end); [discriminate|apply IH].
Qed.

Lemma drop_length (k : nat) (s : string) :
  String.length (drop k s) = (String.length s - k)%nat.
Proof.
  revert s. induction k as [|k IH]; intros [|c s]; simpl; auto.
Qed.

Lemma last_piece_cons (x : string) (l : list string) :
  l <> [] -> last_piece (x :: l) = last_piece l.
Proof. destruct l; [congruence|reflexivity]. Qed.

Section Split.

Variable sep : string.
Hypothesis sep_not_empty : sep <> "".

Lemma contains_empty : contains sep "" = false.
Proof. destruct sep; [congruence|reflexivity]. Qed.

(** The last piece of a split: when the separator does not occur the
    text is the only piece; when it occurs the last piece follows an
    occurrence of the separator and holds no further one. *)
Lemma split_aux_last (n : nat) :
  forall s cur, (String.length s <= n)%nat ->
    (contains sep s = false -> split_aux sep 0 cur s = [cur ++ s]) /\
    (contains sep s = true ->
     exists pre,
       s = pre ++ sep ++ last_piece (split_aux sep 0 cur s) /\
       contains sep (last_piece (split_aux sep 0 cur s)) = false).
Proof.
  induction n as [|n IH]; intros [|c s] cur Hlen;
    try (simpl in Hlen; lia);
    try (rewrite contains_empty; split; [intros _|discriminate];
         simpl; now rewrite app_empty_r).
  cbn [split_aux contains].
  destruct (prefix sep (String c s)) eqn:P; cbn [orb].
  - split; [discriminate|]. intros _.
    pose proof (prefix_drop _ _ P) as E.
    assert (Hk : (1 <= String.length sep)%nat)
      by (destruct sep; [congruence|simpl; lia]).
    assert (Hl : (String.length sep - 1 <= String.length s)%nat).
    { apply (f_equal String.length) in E. rewrite app_length in E.
      simpl in E. lia. }
    rewrite split_aux_skip by exact Hl.
    replace (drop (String.length sep) (String c s))
      with (drop (String.length sep - 1) s) in E
      by (destruct (String.length sep); [lia|];
          simpl; now rewrite Nat.sub_0_r).
    set (rest := drop (String.length sep - 1) s) in *.
    assert (Hr : (String.length rest <= n)%nat)
      by (unfold rest; rewrite drop_length; simpl in Hlen; lia).
    rewrite last_piece_cons by apply split_aux_not_empty.
    destruct (IH rest "" Hr) as [IH1 IH2].
    destruct (contains sep rest) eqn:C.
    + destruct (IH2 eq_refl) as [pre [E' L]].
      exists (sep ++ pre). split; [|exact L].
      rewrite app_assoc_str, <- E'. exact E.
    + rewrite (IH1 eq_refl). exists "". split; [exact E|exact C].
  - assert (Hs : (String.length s <= n)%nat) by (simpl in Hlen; lia).
    destruct (IH s (cur ++ String c "") Hs) as [IH1 IH2].
    split; intros C.
    + rewrite (IH1 C). now rewrite app_assoc_str.
    + destruct (IH2 C) as [pre [E L]].
      exists (String c pre). split; [|exact L].
      simpl. now rewrite <- E.
Qed.

Lemma split_last_piece (s : string) :
  contains sep s = true ->
  exists pre,
    s = pre ++ sep ++ last_piece (split sep s) /\
    contains sep (last_piece (split sep s)) = false.
Proof.
  intros C. unfold split.
  now apply (split_aux_last (String.length s) s "" (Nat.le_refl _)).
Qed.

Lemma split_no_sep (s : string) :
  contains sep s = false -> split sep s = [s].
Proof.
  intros C. unfold split.
  now apply (split_aux_last (String.length s) s "" (Nat.le_refl _)).
Qed.

End Split.

(** ** Play options *)

Lemma play_marker_not_empty : "/play/" <> "".
Proof. discriminate. Qed.

(** The quality lookup: the four tiers go to their lower-case forms and
    every other key to "hd". *)
Lemma quality_map_spec (u : string) :
  (In u tiers -> dict_get V1.quality_map u "hd" = lower u) /\
  (~ In u tiers -> dict_get V1.quality_map u "hd" = "hd").
Proof.
  unfold tiers. split.
  - intros [<-|[<-|[<-|[<-|[]]]]]; reflexivity.
  - intros H. unfold V1.quality_map. cbn [dict_get].
    repeat match goal with
           | |- context [(?k =? u)%string] =>
               destruct (String.eqb_spec k u) as [E|_];
               [exfalso; apply H; rewrite <- E; simpl; tauto|]
           end.
    reflexivity.
Qed.

Lemma take_while_spec (p : ascii -> bool) (s : string) :
  exists suf,
    s = take_while p s ++ suf /\ all_chars p (take_while p s) = true /\
    lstrip p suf = suf.
Proof.
  induction s as [|c s [suf [E [A L]]]]; [now exists ""|].
  simpl. destruct (p c) eqn:Hc.
  - exists suf. simpl. rewrite Hc, A, <- E. auto.
  - exists (String c s). simpl. rewrite Hc. auto.
Qed.

Lemma search_play_digits_cons (c : ascii) (s : string) :
  search_play_digits (String c s) =
  if prefix "/play/" (String c s)
  then if truthy (take_while isdigit (drop 6 (String c s)))
       then Some (take_while isdigit (drop 6 (String c s)))
       else search_play_digits s
  else search_play_digits s.
Proof.
  cbn [search_play_digits].
  destruct (prefix "/play/" (String c s)); reflexivity.
Qed.

(** What the search for [/play/(\d+)] returns: a non-empty run of digits
    that follows an occurrence of "/play/" and is not followed by a
    digit. *)
Lemma search_play_digits_some (s d : string) :
  search_play_digits s = Some d ->
  truthy d = true /\ all_chars isdigit d = true /\
  exists pre suf,
    s = pre ++ "/play/" ++ d ++ suf /\ lstrip isdigit suf = suf.
Proof.
  revert d. induction s as [|c s IH]; intros d; [discriminate|].
  rewrite search_play_digits_cons.
  destruct (prefix "/play/" (String c s)) eqn:P;
    [destruct (truthy (take_while isdigit (drop 6 (String c s)))) eqn:T|
     cbn [truthy]]; intros H.
  - assert (Hd : d = take_while isdigit (drop 6 (String c s)))
      by congruence.
    subst d. clear H. split; [exact T|].
    destruct (take_while_spec isdigit (drop 6 (String c s)))
      as [suf [E [A L]]].
    split; [exact A|]. exists "", suf. split; [|exact L].
    cbn [append]. rewrite <- E. apply (prefix_drop _ _ P).
  - destruct (IH d H) as [T' [A [pre [suf [E L]]]]].
    split; [exact T'|]. split; [exact A|].
    exists (String c pre), suf. split; [|exact L].
    cbn [append]. f_equal. exact E.
  - destruct (IH d H) as [T' [A [pre [suf [E L]]]]].
    split; [exact T'|]. split; [exact A|].
    exists (String c pre), suf. split; [|exact L].
    cbn [append]. f_equal. exact E.
Qed.

(** A match of [/play/(\d+)] at the very start of the text. *)
Lemma play_digit_at_start (s : string) (c : ascii) (r : string) :
  s = "/play/" ++ String c r ->
  prefix "/play/" s = true /\
  truthy (take_while isdigit (drop 6 s)) = isdigit c.
Proof.
  intros ->. split; [reflexivity|].
  cbn [append drop take_while]. destruct (isdigit c); reflexivity.
Qed.

(** The search is complete and takes the leftmost match: it returns
    nothing only when no "/play/" of the text is followed by a digit, and
    otherwise the match it returns starts at or before every place where
    a "/play/" is followed by a digit. *)
Lemma search_play_digits_leftmost (s : string) :
  match search_play_digits s with
  | None =>
      forall p c r, s = p ++ "/play/" ++ String c r -> isdigit c = false
  | Some d =>
      exists pre suf,
        s = pre ++ "/play/" ++ d ++ suf /\
        truthy d = true /\ all_chars isdigit d = true /\
        lstrip isdigit suf = suf /\
        forall p c r, s = p ++ "/play/" ++ String c r ->
                      isdigit c = true ->
                      (String.length pre <= String.length p)%nat
  end.
Proof.
  induction s as [|a s IH].
  - cbn. intros p c r H. destruct p; discriminate H.
  - rewrite search_play_digits_cons.
    destruct (prefix "/play/" (String a s)) eqn:P;
      [destruct (truthy (take_while isdigit (drop 6 (String a s)))) eqn:T|].
    + destruct (take_while_spec isdigit (drop 6 (String a s)))
        as [suf [E [A L]]].
      exists "", suf. split.
      { cbn [append]. rewrite <- E. apply (prefix_drop _ _ P). }
      split; [exact T|]. split; [exact A|]. split; [exact L|].
      intros p c r _ _. simpl. lia.
    + destruct (search_play_digits s) as [d|].
      * destruct IH as [pre [suf [E [Td [A [L M]]]]]].
        exists (String a pre), suf. split; [cbn [append]; f_equal; exact E|].
        split; [exact Td|]. split; [exact A|]. split; [exact L|].
        intros [|a' p'] c r H Hc.
        -- destruct (play_digit_at_start _ c r H) as [_ T'].
           rewrite T in T'. congruence.
        -- cbn [append] in H. injection H as _ H.
           specialize (M p' c r H Hc). simpl. lia.
      * intros [|a' p'] c r H.
        -- destruct (play_digit_at_start _ c r H) as [_ T'].
           now rewrite T in T'.
        -- cbn [append] in H. injection H as _ H. exact (IH p' c r H).
    + destruct (search_play_digits s) as [d|].
      * destruct IH as [pre [suf [E [Td [A [L M]]]]]].
        exists (String a pre), suf. split; [cbn [append]; f_equal; exact E|].
        split; [exact Td|]. split; [exact A|]. split; [exact L|].
        intros [|a' p'] c r H Hc.
        -- destruct (play_digit_at_start _ c r H) as [P' _]. congruence.
        -- cbn [append] in H. injection H as _ H.
           specialize (M p' c r H Hc). simpl. lia.
      * intros [|a' p'] c r H.
        -- destruct (play_digit_at_start _ c r H) as [P' _]. congruence.
        -- cbn [append] in H. injection H as _ H. exact (IH p' c r H).
Qed.

(** C6 as stated fails in the second converter: it returns one play
    option whatever the number of videos, with quality "hd" whatever the
    source tier, and it takes only digits after the marker. *)
Lemma one_play_option_cex :
  exists a,
    V2.convert_item
      (with_videos "x" [video "https://x/play/abc" "SD";
                        video "https://x/play/def" "SD"]) "movie" = Ok a /\
    SF.playOptions (SF.content a) = [synthetic_play_option "x"] /\
    List.length (SF.playOptions (SF.content a)) <> 2%nat.
Proof.
  eexists. split; [reflexivity|]. split; [reflexivity|].
  vm_compute. discriminate.
Qed.

Lemma play_option_with_answers (i : string) (vid : DP.Video) :
  answers i vid (play_option_with i vid).
Proof.
  unfold answers, play_option_with.
  cbn [SF.license SF.quality SF.playId].
  split; [reflexivity|].
  split; [apply quality_map_spec|]. split; [apply quality_map_spec|].
  split; intros C; rewrite C; [|reflexivity].
  split; [reflexivity|].
  destruct (split_last_piece "/play/" play_marker_not_empty _ C)
    as [pre [E L]].
  split; [now exists pre|exact L].
Qed.

Lemma play_options_answer (i : string) (vids : list DP.Video) :
  Forall2 (answers i) vids (map (play_option_with i) vids).
Proof.
  induction vids as [|v vs IH]; constructor;
    [apply play_option_with_answers|exact IH].
Qed.

Lemma v2_play_id_no_video (item : DP.Item) (i : string) :
  source_videos item = [] -> V2.play_id_of item i = i.
Proof.
  unfold source_videos, V2.play_id_of.
  destruct (DP.content item) as [c|]; [|reflexivity].
  destruct (DP.videos c) as [[|v vs]|]; cbn [get];
    [reflexivity|discriminate|reflexivity].
Qed.

Lemma v2_play_id_first_video (item : DP.Item) (i : string)
  (v : DP.Video) (vs : list DP.Video) :
  source_videos item = v :: vs ->
  V2.play_id_of item i =
  match search_play_digits (get (DP.url v) "") with
  | Some digits => digits
  | None => i
  end.
Proof.
  unfold source_videos, V2.play_id_of.
  destruct (DP.content item) as [c|]; [|discriminate].
  destruct (DP.videos c) as [[|v' vs']|]; cbn [get]; try discriminate.
  intros E. injection E as -> _. reflexivity.
Qed.

(** C6 (amended): for every source item with an id [i]:
    - the first converter returns one play option per source video, in
      order, each answering its video in the sense of [answers] (license
      "free"; quality the lower-case form of the tier, matched after
      upper-casing, "hd" for an unknown tier; play id what follows the
      "/play/" marker, the id of the item without marker), and exactly the
      synthetic option (free, hd, [i]) when the video list is empty or
      absent;
    - the second converter always returns exactly one play option, with
      license "free" and quality "hd"; its play id is [i] when there is no
      video, and otherwise it depends on the first video only: when no
      "/play/" of its URL is followed by a digit the play id is [i], and
      when some "/play/" is followed by a digit the play id is the whole
      run of digits behind the leftmost such "/play/". *)
Theorem play_options_rule (item : DP.Item) (i item_type : string) :
  DP.id item = Some i ->
  (exists a, V1.convert_item item item_type = Ok a /\
     (source_videos item = [] ->
      SF.playOptions (SF.content a) = [synthetic_play_option i]) /\
     (source_videos item <> [] ->
      Forall2 (answers i) (source_videos item)
              (SF.playOptions (SF.content a)))) /\
  (exists a po, V2.convert_item item item_type = Ok a /\
     SF.playOptions (SF.content a) = [po] /\
     SF.license po = "free" /\ SF.quality po = "hd" /\
     (source_videos item = [] -> SF.playId po = i) /\
     (forall v vs, source_videos item = v :: vs ->
        (search_play_digits (get (DP.url v) "") = None ->
         SF.playId po = i) /\
        (forall d, search_play_digits (get (DP.url v) "") = Some d ->
         SF.playId po = d /\ truthy d = true /\
         all_chars isdigit d = true /\
         exists pre suf, get (DP.url v) "" = pre ++ "/play/" ++ d ++ suf /\
                         lstrip isdigit suf = suf) /\
        ((forall p c r, get (DP.url v) "" = p ++ "/play/" ++ String c r ->
                        isdigit c = false) ->
         SF.playId po = i) /\
        (forall p c r, get (DP.url v) "" = p ++ "/play/" ++ String c r ->
           isdigit c = true ->
           exists pre suf,
             get (DP.url v) "" = pre ++ "/play/" ++ SF.playId po ++ suf /\
             truthy (SF.playId po) = true /\
             all_chars isdigit (SF.playId po) = true /\
             lstrip isdigit suf = suf /\
             (String.length pre <= String.length p)%nat /\
             forall p' c' r',
               get (DP.url v) "" = p' ++ "/play/" ++ String c' r' ->
               isdigit c' = true ->
               (String.length pre <= String.length p')%nat))).
Proof.
  intros Hid. split.
  - eexists. split; [apply (v1_convert_item_ok item i item_type Hid)|].
    cbn [SF.playOptions SF.content].
    destruct (source_videos item) as [|v vs]; split; intros H;
      try congruence; try reflexivity.
    apply play_options_answer.
  - eexists. eexists.
    split; [apply (v2_convert_item_ok item i item_type Hid)|].
    cbn [SF.playOptions SF.content SF.license SF.quality SF.playId].
    split; [reflexivity|]. split; [reflexivity|]. split; [reflexivity|].
    split; [apply v2_play_id_no_video|].
    intros v vs Hv. rewrite (v2_play_id_first_video item i v vs Hv).
    pose proof (search_play_digits_leftmost (get (DP.url v) "")) as S.
    split; [intros ->; reflexivity|].
    split; [intros d Hd; rewrite Hd; split;
            [reflexivity|now apply search_play_digits_some]|].
    destruct (search_play_digits (get (DP.url v) "")) as [d|].
    + destruct S as [pre [suf [E [T [A [L M]]]]]]. split.
      * intros N. exfalso.
        destruct d as [|c d]; [discriminate|].
        cbn [all_chars] in A. apply andb_true_iff in A.
        rewrite (N pre c (d ++ suf) E) in A. destruct A. discriminate.
      * intros p c r H Hc. exists pre, suf.
        split; [exact E|]. split; [exact T|]. split; [exact A|].
        split; [exact L|]. split; [exact (M p c r H Hc)|exact M].
    + split; [reflexivity|].
      intros p c r H Hc. rewrite (S p c r H) in Hc. discriminate.
Qed.

Lemma play_options_rule_witness :
  (exists a,
     V1.convert_item
       (with_videos "x" [video "https://x/play/999" "sd"; video "u" "4K"])
       "movie" = Ok a /\
     SF.playOptions (SF.content a) =
       [{| SF.license := "free"; SF.quality := "sd"; SF.playId := "999" |};
        {| SF.license := "free"; SF.quality := "hd"; SF.playId := "x" |}]) /\
  (exists a,
     V2.convert_item
       (with_videos "x" [video "https://x/play/ab/play/123x" "sd"])
       "movie" = Ok a /\
     SF.playOptions (SF.content a) =
       [{| SF.license := "free"; SF.quality := "hd"; SF.playId := "123" |}]).
Proof.
  destruct (play_options_rule
              (with_videos "x" [video "https://x/play/999" "sd";
                                video "u" "4K"]) "x" "movie" eq_refl)
    as [[a1 [H1 _]] _].
  destruct (play_options_rule
              (with_videos "x" [video "https://x/play/ab/play/123x" "sd"])
              "x" "movie" eq_refl)
    as [_ [a2 [po [H2 _]]]].
  split; [exists a1|exists a2]; (split; [assumption|]).
  - injection H1 as <-. reflexivity.
  - injection H2 as <-. reflexivity.
Defined.

(** ** Errors and defaults *)

Lemma truncate_twice_200 (s : string) :
  V1.truncate (V1.truncate s 200) 200 = V1.truncate s 200.
Proof. apply truncate_short, truncate_bound. lia. Qed.

Lemma slice_to_slice_to (j k : Z) (s : string) :
  0 <= j <= k -> slice_to k (slice_to j s) = slice_to j s.
Proof.
  intros H. rewrite (slice_to_nonneg k) by lia.
  apply take_all. pose proof (slice_to_bound j s (proj1 H)) as B.
  unfold len in B. lia.
Qed.

(** C8: on every record of the data model both converters raise an
    exception exactly when the record has no id, and the exception is
    then [KeyError] on the key "id".  When the id is present both return
    an asset, and each absent optional field is repaired by its default:
    title "Untitled"; short description the title; long description left
    out (first converter) or the short description (second); release date
    "2025-01-01"; genres ["special"] (first converter); tags left out
    (first) or ["faith"] (second); no image; the rating USA_PR / TV-G;
    and, without content, one synthetic play option and the duration 60
    (first) or 1 (second). *)
Theorem convert_item_fails_iff_no_id (item : DP.Item) (item_type : string) :
  ((exists e, V1.convert_item item item_type = Raise e) <->
   DP.id item = None) /\
  ((exists e, V2.convert_item item item_type = Raise e) <->
   DP.id item = None) /\
  match DP.id item with
  | None =>
      V1.convert_item item item_type = Raise (KeyError "id") /\
      V2.convert_item item item_type = Raise (KeyError "id")
  | Some i =>
      exists a1 a2,
        V1.convert_item item item_type = Ok a1 /\
        V2.convert_item item item_type = Ok a2 /\
        (DP.title item = None ->
         SF.titles a1 = [V1.en "Untitled"] /\
         SF.titles a2 = [V2.plain "Untitled"]) /\
        (DP.shortDescription item = None ->
         SF.shortDescriptions a1 = SF.titles a1 /\
         SF.shortDescriptions a2 = SF.titles a2) /\
        (DP.longDescription item = None ->
         SF.longDescriptions a1 = None /\
         SF.longDescriptions a2 = Some (SF.shortDescriptions a2)) /\
        (DP.releaseDate item = None ->
         SF.releaseDate a1 = "2025-01-01" /\
         SF.releaseDate a2 = "2025-01-01") /\
        (DP.genres item = None -> SF.genres a1 = ["special"]) /\
        (DP.tags item = None ->
         SF.tags a1 = None /\ SF.tags a2 = Some ["faith"]) /\
        (DP.thumbnail item = None ->
         SF.images a1 = [] /\ SF.images a2 = []) /\
        (DP.rating item = None ->
         SF.advisoryRatings a1 = [default_rating] /\
         SF.advisoryRatings a2 = [default_rating]) /\
        (DP.content item = None ->
         SF.playOptions (SF.content a1) = [synthetic_play_option i] /\
         SF.playOptions (SF.content a2) = [synthetic_play_option i] /\
         SF.durationInSeconds a1 = 60 /\ SF.durationInSeconds a2 = 1)
  end.
Proof.
  destruct (DP.id item) as [i|] eqn:Hid.
  - pose proof (v1_convert_item_ok item i item_type Hid) as H1.
    pose proof (v2_convert_item_ok item i item_type Hid) as H2.
    cbv zeta in H1, H2.
    split; [split; [intros [e He]; congruence|discriminate]|].
    split; [split; [intros [e He]; congruence|discriminate]|].
    eexists. eexists. split; [exact H1|]. split; [exact H2|].
    cbn [SF.titles SF.shortDescriptions SF.longDescriptions SF.releaseDate
         SF.genres SF.tags SF.images SF.advisoryRatings SF.playOptions
         SF.content SF.durationInSeconds].
    unfold V1.advisory_ratings, source_videos, V2.play_id_of,
      V2.duration_of.
    repeat match goal with
           | |- _ /\ _ => split
           | |- _ = None -> _ => intros ->
           end;
      cbn [get or_else truthy];
      solve [ reflexivity
            | now rewrite truncate_twice_200
            | now rewrite slice_to_slice_to by lia ].
  - pose proof (v1_convert_item_no_id item item_type Hid) as H1.
    pose proof (v2_convert_item_no_id item item_type Hid) as H2.
    split; [split; [reflexivity|intros _; now exists (KeyError "id")]|].
    split; [split; [reflexivity|intros _; now exists (KeyError "id")]|].
    split; assumption.
Qed.

(** ** The scenarios of the specification on the first converter *)

(** Scenario A: the title is cut to 200 characters and ends with "...",
    the genre is lower-cased, and the one video gives one play option. *)
Example scenario_a_v1 :
  exists a, V1.convert_item scenario_a "movie" = Ok a /\
    SF.id a = "abc123" /\ SF.type a = "movie" /\
    SF.titles a = [V1.en (replicate 197 "A"%char ++ "...")] /\
    SF.genres a = ["drama"] /\
    SF.playOptions (SF.content a) =
      [{| SF.license := "free"; SF.quality := "hd"; SF.playId := "999" |}].
Proof.
  eexists. split; [reflexivity|]. repeat split; vm_compute; reflexivity.
Qed.

(** Scenario B: an item that holds only an id. *)
Example scenario_b_v1 :
  exists a, V1.convert_item (DP.only_id "abc123") "shortform" = Ok a /\
    SF.genres a = ["special"] /\
    SF.advisoryRatings a = [default_rating] /\
    SF.playOptions (SF.content a) = [synthetic_play_option "abc123"] /\
    SF.durationInSeconds a = 60.
Proof.
  eexists. split; [reflexivity|]. repeat split.
Qed.

Example scenario_b_v2 :
  exists a, V2.convert_item (DP.only_id "abc123") "shortform" = Ok a /\
    SF.genres a = ["faith"] /\
    SF.advisoryRatings a = [default_rating] /\
    SF.playOptions (SF.content a) = [synthetic_play_option "abc123"] /\
    SF.durationInSeconds a = 1.
Proof.
  eexists. split; [reflexivity|]. repeat split.
Qed.

(** Scenario D: a record without id. *)
Example scenario_d :
  V1.convert_item without_id "movie" = Raise (KeyError "id") /\
  V2.convert_item without_id "movie" = Raise (KeyError "id").
Proof. split; reflexivity. Qed.

(** ** Further properties of the item conversion *)

Lemma truthy_app_dots (s : string) : truthy (s ++ "...") = true.
Proof. destruct s; reflexivity. Qed.

Lemma truthy_len_pos (s : string) : truthy s = true <-> 0 < len s.
Proof.
  destruct s; unfold len; simpl; split; intros H;
    try discriminate; try reflexivity; lia.
Qed.

Lemma truthy_false_empty (s : string) : truthy s = false <-> s = "".
Proof. destruct s; simpl; split; congruence. Qed.

Lemma truncate_truthy (s : string) (L : Z) :
  truthy (V1.truncate s L) = truthy s.
Proof.
  unfold V1.truncate. destruct s as [|c s]; [reflexivity|].
  cbn [truthy negb]. destruct (len (String c s) <=? L); [reflexivity|].
  apply truthy_app_dots.
Qed.

Lemma take_truthy (n : nat) (s : string) :
  (0 < n)%nat -> truthy (take n s) = truthy s.
Proof. destruct n; [lia|]. destruct s; reflexivity. Qed.

Lemma slice_to_truthy (k : Z) (s : string) :
  0 < k -> truthy (slice_to k s) = truthy s.
Proof.
  intros H. rewrite slice_to_nonneg by lia. apply take_truthy. lia.
Qed.

Lemma or_else_truthy (x y : string) :
  truthy y = true -> truthy (or_else x y) = true.
Proof. unfold or_else. destruct (truthy x) eqn:E; auto. Qed.

Lemma take_drop (n : nat) (s : string) : take n s ++ drop n s = s.
Proof.
  revert s. induction n as [|n IH]; intros [|c s]; simpl; auto.
  now rewrite IH.
Qed.

(** X21: truncation keeps an empty text empty and a non-empty text
    non-empty, whatever the limit; with a limit of at least 3 it never
    makes a text longer. *)
Theorem truncate_shrinks (s : string) (L : Z) :
  (V1.truncate s L = "" <-> s = "") /\
  (3 <= L -> len (V1.truncate s L) <= len s).
Proof.
  split.
  - rewrite <- !truthy_false_empty. now rewrite truncate_truthy.
  - intros HL. destruct (Z.le_gt_cases (len s) L) as [H|H].
    + rewrite truncate_short by assumption. lia.
    + pose proof (truncate_bound s L HL). lia.
Qed.

Lemma truncate_shrinks_witness :
  len (V1.truncate "abcdefgh" 5) <= len "abcdefgh" /\
  V1.truncate "abcdefgh" 1 <> "".
Proof.
  split.
  - apply (proj2 (truncate_shrinks "abcdefgh" 5)). lia.
  - intros H. apply (proj1 (truncate_shrinks "abcdefgh" 1)) in H.
    discriminate H.
Defined.

(** X1: for every item with an id, the first converter emits exactly one
    title and one short description, each of at most 200 characters; the
    long descriptions are left out exactly when the source long
    description is absent or empty, and otherwise hold one text of 1 to
    500 characters.  A source title that is present but empty stays
    empty. *)
Theorem v1_text_bounds (item : DP.Item) (i item_type : string) :
  DP.id item = Some i ->
  exists a t sd,
    V1.convert_item item item_type = Ok a /\
    SF.titles a = [V1.en t] /\ len t <= 200 /\
    SF.shortDescriptions a = [V1.en sd] /\ len sd <= 200 /\
    (DP.title item = Some "" -> t = "") /\
    (SF.longDescriptions a = None <->
     get (DP.longDescription item) "" = "") /\
    (forall l, SF.longDescriptions a = Some l ->
       exists ld, l = [V1.en ld] /\ 0 < len ld <= 500).
Proof.
  intros Hid. eexists. eexists. eexists.
  split; [apply (v1_convert_item_ok item i item_type Hid)|].
  cbn [SF.titles SF.shortDescriptions SF.longDescriptions].
  split; [reflexivity|]. split; [apply truncate_bound; lia|].
  split; [reflexivity|]. split; [apply truncate_bound; lia|].
  split; [intros ->; reflexivity|].
  set (ld := V1.truncate (get (DP.longDescription item) "") 500).
  assert (T : truthy ld = truthy (get (DP.longDescription item) ""))
    by apply truncate_truthy.
  destruct (truthy ld) eqn:E; split.
  - split; [discriminate|]. intros H. rewrite H in T. discriminate.
  - intros l H. injection H as <-. exists ld. split; [reflexivity|].
    split; [now apply truthy_len_pos|apply truncate_bound; lia].
  - split; [intros _|reflexivity]. now apply truthy_false_empty.
  - discriminate.
Qed.

Lemma v1_text_bounds_witness :
  exists a t, V1.convert_item scenario_a "movie" = Ok a /\
              SF.titles a = [V1.en t] /\ len t <= 200.
Proof.
  destruct (v1_text_bounds scenario_a "abc123" "movie" eq_refl)
    as [a [t [sd [Ha [Ht [Hl _]]]]]].
  exists a, t. auto.
Defined.

(** X2: for every item with an id, the second converter emits exactly
    one title, one short and one long description, none of them empty,
    of at most 200, 200 and 500 characters: an absent or empty text is
    replaced before the cut. *)
Theorem v2_text_bounds (item : DP.Item) (i item_type : string) :
  DP.id item = Some i ->
  exists a t sd ld,
    V2.convert_item item item_type = Ok a /\
    SF.titles a = [V2.plain t] /\ 0 < len t <= 200 /\
    SF.shortDescriptions a = [V2.plain sd] /\ 0 < len sd <= 200 /\
    SF.longDescriptions a = Some [V2.plain ld] /\ 0 < len ld <= 500.
Proof.
  intros Hid. eexists. eexists. eexists. eexists.
  split; [apply (v2_convert_item_ok item i item_type Hid)|].
  cbn [SF.titles SF.shortDescriptions SF.longDescriptions].
  set (t := slice_to 200 (or_else (get (DP.title item) "") "Untitled")).
  set (sd := slice_to 200 (or_else (get (DP.shortDescription item) "") t)).
  set (ld := slice_to 500 (or_else (get (DP.longDescription item) "") sd)).
  assert (Tt : truthy t = true).
  { unfold t. rewrite slice_to_truthy by lia. now apply or_else_truthy. }
  assert (Tsd : truthy sd = true).
  { unfold sd. rewrite slice_to_truthy by lia. now apply or_else_truthy. }
  assert (Tld : truthy ld = true).
  { unfold ld. rewrite slice_to_truthy by lia. now apply or_else_truthy. }
  repeat split; try (now apply truthy_len_pos);
    apply slice_to_bound; lia.
Qed.

Lemma v2_text_bounds_witness :
  exists a t, V2.convert_item (DP.only_id "x") "movie" = Ok a /\
              SF.titles a = [V2.plain t] /\ 0 < len t <= 200.
Proof.
  destruct (v2_text_bounds (DP.only_id "x") "x" "movie" eq_refl)
    as [a [t [sd [ld [Ha [Ht [Hl _]]]]]]].
  exists a, t. auto.
Defined.

Lemma source_map_spec (src : string) :
  (src = "MPAA" -> dict_get V1.source_map src "USA_PR" = "MPAA") /\
  (src <> "MPAA" -> dict_get V1.source_map src "USA_PR" = "USA_PR").
Proof.
  split.
  - intros ->. reflexivity.
  - intros H. unfold V1.source_map. cbn [dict_get].
    destruct (String.eqb_spec "USA_TV" src); [reflexivity|].
    destruct (String.eqb_spec "MPAA" src); [congruence|].
    destruct (String.eqb_spec "USA_PR" src); reflexivity.
Qed.

(** X3: for every item with an id, the first converter emits exactly one
    advisory rating.  Its source is "MPAA" exactly when the source rating
    names the rating source "MPAA", and "USA_PR" in every other case
    (USA_TV, USA_PR, an unknown or an absent rating source, no rating);
    its value is the source rating value, unchanged and unchecked, and
    "TV-G" when there is none. *)
Theorem v1_rating_mapping (item : DP.Item) (i item_type : string) :
  DP.id item = Some i ->
  exists a r,
    V1.convert_item item item_type = Ok a /\
    SF.advisoryRatings a = [r] /\
    (SF.source r = "MPAA" \/ SF.source r = "USA_PR") /\
    (SF.source r = "MPAA" <->
     exists rt, DP.rating item = Some rt /\
                DP.ratingSource rt = Some "MPAA") /\
    (forall rt v, DP.rating item = Some rt ->
       DP.rating_value rt = Some v -> SF.rating_value r = v) /\
    ((forall rt, DP.rating item = Some rt -> DP.rating_value rt = None) ->
     SF.rating_value r = "TV-G").
Proof.
  intros Hid.
  assert (H : exists r,
    V1.advisory_ratings item = [r] /\
    (SF.source r = "MPAA" \/ SF.source r = "USA_PR") /\
    (SF.source r = "MPAA" <->
     exists rt, DP.rating item = Some rt /\
                DP.ratingSource rt = Some "MPAA") /\
    (forall rt v, DP.rating item = Some rt ->
       DP.rating_value rt = Some v -> SF.rating_value r = v) /\
    ((forall rt, DP.rating item = Some rt -> DP.rating_value rt = None) ->
     SF.rating_value r = "TV-G")).
  { unfold V1.advisory_ratings.
    destruct (DP.rating item) as [[src val]|]; cbn [get].
    - unfold truthy_rating.
      cbn [DP.ratingSource DP.rating_value DP.empty_rating].
      destruct src as [src|], val as [val|]; cbn [get];
        eexists; (split; [reflexivity|]);
        cbn [SF.source SF.rating_value].
      + destruct (string_dec src "MPAA") as [E|E].
        * rewrite (proj1 (source_map_spec src) E).
          split; [now left|]. split.
          -- split; [intros _|reflexivity]. eexists. split; [reflexivity|].
             simpl. now rewrite E.
          -- split.
             ++ intros rt v Hrt Hv. injection Hrt as <-. simpl in Hv.
                congruence.
             ++ intros Hn. specialize (Hn _ eq_refl). discriminate.
        * rewrite (proj2 (source_map_spec src) E).
          split; [now right|]. split.
          -- split; [discriminate|].
             intros [rt [Hrt Hs]]. injection Hrt as <-. simpl in Hs.
             congruence.
          -- split.
             ++ intros rt v Hrt Hv. injection Hrt as <-. simpl in Hv.
                congruence.
             ++ intros Hn. specialize (Hn _ eq_refl). discriminate.
      + destruct (string_dec src "MPAA") as [E|E].
        * rewrite (proj1 (source_map_spec src) E).
          split; [now left|]. split.
          -- split; [intros _|reflexivity]. eexists. split; [reflexivity|].
             simpl. now rewrite E.
          -- split; [|reflexivity].
             intros rt v Hrt Hv. injection Hrt as <-. discriminate.
        * rewrite (proj2 (source_map_spec src) E).
          split; [now right|]. split.
          -- split; [discriminate|].
             intros [rt [Hrt Hs]]. injection Hrt as <-. simpl in Hs.
             congruence.
          -- split; [|reflexivity].
             intros rt v Hrt Hv. injection Hrt as <-. discriminate.
      + split; [now right|]. split.
        * split; [discriminate|].
          intros [rt [Hrt Hs]]. injection Hrt as <-. discriminate.
        * split.
          -- intros rt v Hrt Hv. injection Hrt as <-. simpl in Hv.
             congruence.
          -- intros Hn. specialize (Hn _ eq_refl). discriminate.
      + split; [now right|]. split.
        * split; [discriminate|].
          intros [rt [Hrt Hs]]. injection Hrt as <-. discriminate.
        * split; [|reflexivity].
          intros rt v Hrt Hv. injection Hrt as <-. discriminate.
    - eexists. split; [reflexivity|]. cbn [SF.source SF.rating_value].
      split; [now right|]. split.
      + split; [discriminate|]. intros [rt [Hrt _]]. discriminate.
      + split; [discriminate|reflexivity]. }
  destruct H as [r Hr]. eexists. exists r.
  split; [apply (v1_convert_item_ok item i item_type Hid)|].
  cbn [SF.advisoryRatings]. exact Hr.
Qed.

Lemma v1_rating_mapping_witness :
  exists a, V1.convert_item (DP.only_id "x") "movie" = Ok a /\
            SF.advisoryRatings a = [default_rating].
Proof.
  destruct (v1_rating_mapping (DP.only_id "x") "x" "movie" eq_refl)
    as [a [r [Ha [Hr _]]]].
  exists a. split; [exact Ha|].
  injection Ha as <-. reflexivity.
Defined.

(** X4: for every item with an id, the two converters emit the same
    images: none when the thumbnail is absent or empty, and otherwise
    exactly one image of type "main" whose URL is the thumbnail. *)
Theorem images_rule (item : DP.Item) (i item_type : string) :
  DP.id item = Some i ->
  exists a1 a2,
    V1.convert_item item item_type = Ok a1 /\
    V2.convert_item item item_type = Ok a2 /\
    SF.images a1 = SF.images a2 /\
    (DP.thumbnail item = None \/ DP.thumbnail item = Some "" ->
     SF.images a1 = []) /\
    (forall th, DP.thumbnail item = Some th -> th <> "" ->
     SF.images a1 = [{| SF.image_type := "main"; SF.url := th |}]).
Proof.
  intros Hid. eexists. eexists.
  split; [apply (v1_convert_item_ok item i item_type Hid)|].
  split; [apply (v2_convert_item_ok item i item_type Hid)|].
  cbn [SF.images].
  destruct (DP.thumbnail item) as [[|c th]|]; cbn [truthy_str get truthy].
  - split; [reflexivity|]. split; [reflexivity|]. intros th E H.
    injection E as <-. congruence.
  - split; [reflexivity|]. split.
    + intros [H|H]; discriminate.
    + intros th' H _. now injection H as <-.
  - split; [reflexivity|]. split; [reflexivity|]. discriminate.
Qed.

Lemma images_rule_witness :
  exists a1 a2,
    V1.convert_item (DP.only_id "x") "movie" = Ok a1 /\
    V2.convert_item (DP.only_id "x") "movie" = Ok a2 /\
    SF.images a1 = SF.images a2.
Proof.
  destruct (images_rule (DP.only_id "x") "x" "movie" eq_refl)
    as [a1 [a2 [H1 [H2 [E _]]]]].
  exists a1, a2. auto.
Defined.

(** X5: whatever string the caller declares as type, the second
    converter emits only the types "movie" and "shortform", and it emits
    "movie" exactly when the declared type is not "shortform" and the
    duration of the asset is above 900 seconds. *)
Theorem v2_type_invariant (item : DP.Item) (i item_type : string) :
  DP.id item = Some i ->
  exists a,
    V2.convert_item item item_type = Ok a /\
    (SF.type a = "movie" \/ SF.type a = "shortform") /\
    (SF.type a = "movie" <->
     item_type <> "shortform" /\ 900 < SF.durationInSeconds a).
Proof.
  intros Hid. eexists.
  split; [apply (v2_convert_item_ok item i item_type Hid)|].
  cbn [SF.type SF.durationInSeconds].
  destruct (String.eqb_spec item_type "shortform") as [E|E].
  - split; [now right|]. split; [discriminate|]. intros [H _]. congruence.
  - destruct (Z.gtb_spec (V2.duration_of item) 900) as [G|G].
    + split; [now left|]. split; [intros _; split; [exact E|lia]|reflexivity].
    + split; [now right|]. split; [discriminate|]. intros [_ H]. lia.
Qed.

Lemma v2_type_invariant_witness :
  exists a, V2.convert_item (with_duration "x" 1200) "episode" = Ok a /\
            (SF.type a = "movie" \/ SF.type a = "shortform").
Proof.
  destruct (v2_type_invariant (with_duration "x" 1200) "x" "episode" eq_refl)
    as [a [Ha [Ht _]]].
  exists a. auto.
Defined.

(** X6: a zero duration never reaches the output: for every item with
    an id, and whatever its source duration is, the durationInSeconds of
    both converters differs from 0. *)
Theorem duration_never_zero (item : DP.Item) (i item_type : string) :
  DP.id item = Some i ->
  exists a1 a2,
    V1.convert_item item item_type = Ok a1 /\
    V2.convert_item item item_type = Ok a2 /\
    SF.durationInSeconds a1 <> 0 /\ SF.durationInSeconds a2 <> 0.
Proof.
  intros Hid. eexists. eexists.
  split; [apply (v1_convert_item_ok item i item_type Hid)|].
  split; [apply (v2_convert_item_ok item i item_type Hid)|].
  cbn [SF.durationInSeconds].
  unfold V1.duration_in_seconds, V2.duration_of.
  destruct (DP.content item) as [c|]; cbn [get DP.duration DP.empty_content];
    [|split; discriminate].
  destruct (DP.duration c) as [[|n]|]; cbn [get]; try (split; discriminate).
  destruct (Z.eqb_spec n 0); split; try discriminate; assumption.
Qed.

Lemma duration_never_zero_witness :
  exists a1 a2,
    V1.convert_item (with_duration "x" (-5)) "movie" = Ok a1 /\
    V2.convert_item (with_duration "x" (-5)) "movie" = Ok a2 /\
    SF.durationInSeconds a1 <> 0 /\ SF.durationInSeconds a2 <> 0.
Proof.
  apply (duration_never_zero (with_duration "x" (-5)) "x" "movie" eq_refl).
Defined.

(** X7: in the first converter the id of the asset is a prefix of the
    source id, of length the smaller of 50 and the length of the source
    id: nothing is changed inside the part that is kept. *)
Theorem v1_id_prefix (item : DP.Item) (i item_type : string) :
  DP.id item = Some i ->
  exists a rest,
    V1.convert_item item item_type = Ok a /\
    i = SF.id a ++ rest /\
    len (SF.id a) = Z.min 50 (len i).
Proof.
  intros Hid. eexists. exists (drop 50 i).
  split; [apply (v1_convert_item_ok item i item_type Hid)|].
  cbn [SF.id]. rewrite slice_to_nonneg by lia.
  split; [symmetry; apply take_drop|].
  unfold len. rewrite take_length. lia.
Qed.

Lemma v1_id_prefix_witness :
  exists a rest,
    V1.convert_item (DP.only_id long_id) "movie" = Ok a /\
    long_id = SF.id a ++ rest /\ len (SF.id a) = 50.
Proof.
  destruct (v1_id_prefix (DP.only_id long_id) long_id "movie" eq_refl)
    as [a [rest [Ha [Hp Hl]]]].
  exists a, rest. auto.
Defined.

Lemma quality_map_range (u : string) :
  In (dict_get V1.quality_map u "hd") ["hd"; "sd"; "uhd"; "fhd"].
Proof.
  unfold V1.quality_map. cbn [dict_get].
  repeat match goal with
         | |- context [(?k =? u)%string] => destruct (k =? u)%string
         end; simpl; tauto.
Qed.

(** X8: every play option of both converters has the license "free" and
    a quality among "hd", "sd", "uhd" and "fhd", whatever the source
    videos hold. *)
Theorem play_option_vocabulary (item : DP.Item) (i item_type : string) :
  DP.id item = Some i ->
  exists a1 a2,
    V1.convert_item item item_type = Ok a1 /\
    V2.convert_item item item_type = Ok a2 /\
    Forall (fun po => SF.license po = "free" /\
                      In (SF.quality po) ["hd"; "sd"; "uhd"; "fhd"])
           (SF.playOptions (SF.content a1) ++ SF.playOptions (SF.content a2)).
Proof.
  intros Hid. eexists. eexists.
  split; [apply (v1_convert_item_ok item i item_type Hid)|].
  split; [apply (v2_convert_item_ok item i item_type Hid)|].
  cbn [SF.playOptions SF.content]. apply Forall_app. split.
  - destruct (source_videos item) as [|v vs].
    + constructor; [|constructor]. simpl. tauto.
    + apply Forall_forall. intros po Hpo.
      apply in_map_iff in Hpo. destruct Hpo as [vid [<- _]].
      split; [reflexivity|apply quality_map_range].
  - constructor; [|constructor]. simpl. tauto.
Qed.

Lemma play_option_vocabulary_witness :
  exists a1,
    V1.convert_item (with_videos "x" [video "u" "4K"]) "movie" = Ok a1 /\
    Forall (fun po => SF.license po = "free")
           (SF.playOptions (SF.content a1)).
Proof.
  destruct (play_option_vocabulary (with_videos "x" [video "u" "4K"])
              "x" "movie" eq_refl) as [a1 [a2 [H1 [_ F]]]].
  exists a1. split; [exact H1|].
  apply Forall_app in F. destruct F as [F _].
  eapply Forall_impl; [|exact F]. intros po [H _]. exact H.
Defined.

Lemma lstrip_take (p : ascii -> bool) (n : nat) (s : string) :
  lstrip p s = s -> lstrip p (take n s) = take n s.
Proof.
  destruct s as [|c s]; [destruct n; reflexivity|].
  intros H. apply lstrip_fixed_head in H.
  destruct n; [reflexivity|]. simpl. now rewrite H.
Qed.

(** X9: the tags of an asset are never an empty list.  The first
    converter leaves the key out or emits at least one tag, and none of
    its tags starts with a white space character; the second converter
    always emits at least one tag. *)
Theorem tags_never_empty (item : DP.Item) (i item_type : string) :
  DP.id item = Some i ->
  exists a1 a2 l2,
    V1.convert_item item item_type = Ok a1 /\
    V2.convert_item item item_type = Ok a2 /\
    SF.tags a1 <> Some [] /\
    (forall l1, SF.tags a1 = Some l1 ->
       Forall (fun t => lstrip isspace t = t /\ t <> "") l1) /\
    SF.tags a2 = Some l2 /\ l2 <> [].
Proof.
  intros Hid. eexists. eexists. eexists.
  split; [apply (v1_convert_item_ok item i item_type Hid)|].
  split; [apply (v2_convert_item_ok item i item_type Hid)|].
  cbn [SF.tags].
  split; [destruct (V1.clean_tags _); discriminate|].
  split; [|split; [reflexivity|destruct (V2.short_tags _); discriminate]].
  intros l1 Hl.
  assert (F : Forall (fun t => lstrip isspace t = t /\ t <> "")
                     (V1.clean_tags (get (DP.tags item) []))).
  { unfold V1.clean_tags. apply Forall_forall. intros x Hx.
    apply in_map_iff in Hx. destruct Hx as [t [<- Ht]].
    apply filter_In in Ht. destruct Ht as [_ Ht].
    rewrite slice_to_nonneg by lia. split.
    - apply lstrip_take. unfold strip_space.
      now destruct (strip_spec isspace (strip_quote t))
        as [_ [_ [_ [_ [_ [L _]]]]]].
    - intros E.
      assert (T : truthy (take (Z.to_nat 20) (strip_space (strip_quote t)))
                  = truthy (strip_space (strip_quote t)))
        by (apply take_truthy; lia).
      rewrite E, Ht in T. discriminate. }
  destruct (V1.clean_tags (get (DP.tags item) [])) as [|t ts];
    [discriminate|]. now injection Hl as <-.
Qed.

Lemma tags_never_empty_witness :
  exists a2 l2,
    V2.convert_item (DP.only_id "x") "movie" = Ok a2 /\
    SF.tags a2 = Some l2 /\ l2 <> [].
Proof.
  destruct (tags_never_empty (DP.only_id "x") "x" "movie" eq_refl)
    as [a1 [a2 [l2 [_ [H2 [_ [_ [Ht Hn]]]]]]]].
  exists a2, l2. auto.
Defined.

(** ** Further properties of the genre functions *)

Lemma lower_char_idem (c : ascii) : lower_char (lower_char c) = lower_char c.
Proof.
  destruct c as [[|] [|] [|] [|] [|] [|] [|] [|]]; vm_compute; reflexivity.
Qed.

Lemma lower_idem (s : string) : lower (lower s) = lower s.
Proof.
  induction s as [|c s IH]; [reflexivity|].
  unfold lower in *. simpl. now rewrite lower_char_idem, IH.
Qed.

Lemma lower_app (s t : string) : lower (s ++ t) = lower s ++ lower t.
Proof.
  induction s as [|c s IH]; [reflexivity|].
  unfold lower in *. simpl. now rewrite IH.
Qed.

Lemma lower_join (sep : string) (l : list string) :
  lower (join sep l) = join (lower sep) (map lower l).
Proof.
  unfold join. induction l as [|x [|y l] IH]; try reflexivity.
  change (String.concat sep (x :: y :: l)) with (x ++ sep ++ String.concat sep (y :: l)).
  change (String.concat (lower sep) (map lower (x :: y :: l)))
    with (lower x ++ lower sep ++ String.concat (lower sep) (map lower (y :: l))).
  now rewrite !lower_app, IH.
Qed.

Lemma filter_all {A : Type} (f : A -> bool) (l : list A) :
  Forall (fun x => f x = true) l -> filter f l = l.
Proof.
  induction 1 as [|x l Hx _ IH]; [reflexivity|]. simpl. now rewrite Hx, IH.
Qed.

Lemma filter_map_swap {A B : Type} (f : B -> bool) (g : A -> B)
  (l : list A) :
  filter f (map g l) = map g (filter (fun x => f (g x)) l).
Proof.
  induction l as [|x l IH]; [reflexivity|].
  simpl. destruct (f (g x)); simpl; now rewrite IH.
Qed.

Lemma validate_genres_fixed (l : list string) :
  l <> [] -> Forall (fun g => In g VALID_GENRES) l ->
  V1.validate_genres l = l.
Proof.
  intros Hne F. unfold V1.validate_genres.
  rewrite filter_all.
  - destruct l as [|g l]; [congruence|].
    rewrite <- (map_id (g :: l)) at 2. apply map_ext_in.
    intros x Hx. apply VALID_GENRES_lower.
    rewrite Forall_forall in F. now apply F.
  - eapply Forall_impl; [|exact F]. intros g Hg. cbv beta.
    rewrite (VALID_GENRES_lower g Hg). now apply mem_In.
Qed.

(** X10: [validate_genres] is idempotent, it gives the same result on
    the genres and on their lower-case forms, and it returns at least one
    genre and at most as many as it is given (one for an empty list). *)
Theorem validate_genres_stable (genres : list string) :
  V1.validate_genres (V1.validate_genres genres) =
    V1.validate_genres genres /\
  V1.validate_genres (map lower genres) = V1.validate_genres genres /\
  (1 <= List.length (V1.validate_genres genres)
     <= Nat.max 1 (List.length genres))%nat.
Proof.
  split; [|split].
  - destruct (validate_genres_valid genres) as [Hne F].
    now apply validate_genres_fixed.
  - unfold V1.validate_genres. rewrite filter_map_swap.
    rewrite (filter_ext (fun x => mem (lower (lower x)) VALID_GENRES)
                        (fun g => mem (lower g) VALID_GENRES))
      by (intros x; now rewrite lower_idem).
    destruct (filter _ genres) as [|g l]; [reflexivity|].
    cbn [map]. rewrite lower_idem. f_equal.
    rewrite map_map. apply map_ext. intros x. apply lower_idem.
  - unfold V1.validate_genres.
    pose proof (filter_length_le (fun g => mem (lower g) VALID_GENRES)
                                 genres) as Hl.
    destruct (filter _ genres) as [|g l]; [cbn [List.length]; lia|].
    rewrite length_map. cbn [List.length] in *. lia.
Qed.

(** ** Further properties of the classification *)

Lemma prefix_empty (s : string) : prefix "" s = true.
Proof. destruct s; reflexivity. Qed.

Lemma prefix_app (w s t : string) :
  prefix w s = true -> prefix w (s ++ t) = true.
Proof.
  revert s. induction w as [|a w IH]; intros s H; [apply prefix_empty|].
  destruct s as [|b s]; [discriminate|].
  simpl in *. destruct (ascii_dec a b); [now apply IH|discriminate].
Qed.

Lemma contains_app_l (w s t : string) :
  contains w s = true -> contains w (s ++ t) = true.
Proof.
  induction s as [|c s IH]; intros H.
  - simpl in H. rewrite orb_false_r in H.
    destruct w; [|discriminate]. destruct t; reflexivity.
  - cbn [contains] in H. apply orb_true_iff in H.
    change (String c s ++ t) with (String c (s ++ t)).
    cbn [contains]. apply orb_true_iff. destruct H as [H|H].
    + left. now apply (prefix_app w (String c s) t).
    + right. now apply IH.
Qed.

Lemma contains_app_r (w s t : string) :
  contains w t = true -> contains w (s ++ t) = true.
Proof.
  intros H. induction s as [|c s IH]; [exact H|].
  change (String c s ++ t) with (String c (s ++ t)).
  cbn [contains]. rewrite IH. apply orb_true_r.
Qed.

Lemma contains_join (w sep t : string) (l : list string) :
  In t l -> contains w t = true -> contains w (join sep l) = true.
Proof.
  unfold join. intros Hin Hw.
  induction l as [|x [|y l] IH]; [destruct Hin| |].
  - destruct Hin as [->|[]]. exact Hw.
  - change (String.concat sep (x :: y :: l)) with (x ++ sep ++ String.concat sep (y :: l)).
    destruct Hin as [->|Hin].
    + now apply contains_app_l.
    + apply contains_app_r, contains_app_r. now apply IH.
Qed.

Lemma classify_text_lower (title description : string) (tags : list string) :
  lower (lower title ++ " " ++ lower description ++ " " ++
         join " " (map lower tags)) =
  lower (title ++ " " ++ description ++ " " ++ join " " tags).
Proof.
  rewrite !lower_app, !lower_join, !lower_idem.
  rewrite map_map.
  rewrite (map_ext (fun x => lower (lower x)) lower)
    by (intros x; apply lower_idem).
  reflexivity.
Qed.

(** X11: the classification does not see the case of the letters of the
    title, of the description and of the tags, and it does not depend on
    the duration it is given. *)
Theorem classify_case_insensitive (title description : string)
  (tags : list string) (d d' : Z) :
  V2.classify_content (lower title) (lower description) (map lower tags) d
  = V2.classify_content title description tags d'.
Proof.
  unfold V2.classify_content. cbv zeta.
  rewrite classify_text_lower. reflexivity.
Qed.

(** X12: the first bucket wins: when one of the church keywords occurs
    in the lower-cased title, in the lower-cased description or in a
    lower-cased tag, the genre is ["faith"], whatever else the texts
    hold. *)
Theorem classify_faith_keyword (title description : string)
  (tags : list string) (d : Z) (w : string) :
  In w faith_words ->
  contains w (lower title) = true \/
  contains w (lower description) = true \/
  (exists t, In t tags /\ contains w (lower t) = true) ->
  V2.classify_content title description tags d = ["faith"].
Proof.
  intros Hw H. unfold V2.classify_content. cbv zeta.
  set (text := lower (title ++ " " ++ description ++ " " ++ join " " tags)).
  assert (C : contains w text = true).
  { unfold text. rewrite !lower_app, lower_join.
    destruct H as [H|[H|[t [Ht H]]]].
    - now apply contains_app_l.
    - apply contains_app_r, contains_app_r. now apply contains_app_l.
    - do 4 apply contains_app_r.
      apply (contains_join w _ (lower t)); [|exact H].
      apply in_map_iff. now exists t. }
  assert (A : V2.any_in faith_words text = true).
  { unfold V2.any_in. apply existsb_exists. now exists w. }
  unfold faith_words in A. now rewrite A.
Qed.

Lemma classify_faith_keyword_witness :
  V2.classify_content "Sunday Concert" "Music and news" ["Holiday"] 60 =
  ["faith"].
Proof.
  apply (classify_faith_keyword _ _ _ _ "sunday").
  - vm_compute. tauto.
  - left. vm_compute. reflexivity.
Defined.

(** ** The batch driver of the first converter *)

Lemma try_convert_with_id (kind : string) (st : V1.Progress)
  (item : DP.Item) (i : string) :
  DP.id item = Some i ->
  exists a,
    V1.convert_item item kind = Ok a /\
    V1.try_convert kind st item =
    {| V1.assets := V1.assets st ++ [a]; V1.errors := V1.errors st;
       V1.stderr := V1.stderr st |}.
Proof.
  intros Hid. unfold V1.try_convert.
  rewrite (v1_convert_item_ok item i kind Hid). eexists. split; reflexivity.
Qed.

Lemma try_convert_no_id (kind : string) (st : V1.Progress)
  (item : DP.Item) :
  DP.id item = None ->
  V1.try_convert kind st item =
  {| V1.assets := V1.assets st; V1.errors := V1.errors st + 1;
     V1.stderr := V1.stderr st ++ [error_line kind] |}.
Proof.
  intros Hid. unfold V1.try_convert.
  rewrite (v1_convert_item_no_id item kind Hid), Hid. reflexivity.
Qed.

(** A conversion loop, from any state. *)
Lemma fold_try_convert (kind : string) (items : list DP.Item) :
  forall st,
    fold_left (V1.try_convert kind) items st =
    {| V1.assets := V1.assets st ++ converted kind items;
       V1.errors :=
         V1.errors st + Z.of_nat (List.length (filter has_no_id items));
       V1.stderr :=
         V1.stderr st ++
         repeat (error_line kind) (List.length (filter has_no_id items)) |}.
Proof.
  induction items as [|item items IH]; intros st.
  - destruct st. simpl. now rewrite !app_nil_r, Z.add_0_r.
  - cbn [fold_left]. rewrite IH. unfold converted, has_no_id.
    cbn [flat_map filter].
    destruct (DP.id item) as [i|] eqn:Hid.
    + destruct (try_convert_with_id kind st item i Hid) as [a [Ha ->]].
      rewrite Ha. cbn [V1.assets V1.errors V1.stderr].
      now rewrite <- app_assoc.
    + rewrite (try_convert_no_id kind st item Hid).
      rewrite (v1_convert_item_no_id item kind Hid).
      cbn [V1.assets V1.errors V1.stderr List.length repeat app].
      rewrite <- app_assoc. cbn [app]. f_equal. lia.
Qed.

Lemma convert_feed_unfold (feed : DP.Feed) :
  V1.convert_feed feed =
  {| V1.assets :=
       converted "movie" (feed_movies feed) ++
       converted "shortform" (feed_shortforms feed);
     V1.errors :=
       Z.of_nat (List.length (filter has_no_id (feed_items feed)));
     V1.stderr :=
       repeat (error_line "movie")
              (List.length (filter has_no_id (feed_movies feed))) ++
       repeat (error_line "shortform")
              (List.length (filter has_no_id (feed_shortforms feed))) |}.
Proof.
  unfold V1.convert_feed, feed_items. cbv zeta.
  fold (feed_movies feed). fold (feed_shortforms feed).
  rewrite !fold_try_convert. cbn [V1.assets V1.errors V1.stderr app].
  f_equal. rewrite filter_app, length_app. lia.
Qed.

Lemma converted_ids (kind : string) (items : list DP.Item) :
  map SF.id (converted kind items) = map (slice_to 50) (present_ids items).
Proof.
  unfold converted, present_ids.
  induction items as [|item items IH]; [reflexivity|].
  cbn [flat_map]. rewrite !map_app, IH. f_equal.
  destruct (DP.id item) as [i|] eqn:Hid.
  - now rewrite (v1_convert_item_ok item i kind Hid).
  - now rewrite (v1_convert_item_no_id item kind Hid).
Qed.

Lemma converted_types (kind : string) (items : list DP.Item) :
  map SF.type (converted kind items) =
  repeat kind (List.length (present_ids items)).
Proof.
  unfold converted, present_ids.
  induction items as [|item items IH]; [reflexivity|].
  cbn [flat_map]. rewrite map_app, length_app, repeat_app, IH. f_equal.
  destruct (DP.id item) as [i|] eqn:Hid.
  - now rewrite (v1_convert_item_ok item i kind Hid).
  - now rewrite (v1_convert_item_no_id item kind Hid).
Qed.

Lemma converted_length (kind : string) (items : list DP.Item) :
  (List.length (converted kind items) +
   List.length (filter has_no_id items) = List.length items)%nat.
Proof.
  unfold converted, has_no_id.
  induction items as [|item items IH]; [reflexivity|].
  cbn [flat_map filter]. rewrite length_app.
  destruct (DP.id item) as [i|] eqn:Hid.
  - rewrite (v1_convert_item_ok item i kind Hid). simpl. lia.
  - rewrite (v1_convert_item_no_id item kind Hid). simpl. lia.
Qed.

Lemma converted_from (kind : string) (items : list DP.Item) :
  Forall (fun a => exists item i,
            In item items /\ DP.id item = Some i /\
            V1.convert_item item kind = Ok a)
         (converted kind items).
Proof.
  unfold converted. apply Forall_forall. intros a Ha.
  apply in_flat_map in Ha. destruct Ha as [item [Hin Ha]].
  destruct (DP.id item) as [i|] eqn:Hid.
  - exists item, i. split; [exact Hin|]. split; [exact Hid|].
    destruct (V1.convert_item item kind); [|destruct Ha].
    destruct Ha as [->|[]]. reflexivity.
  - rewrite (v1_convert_item_no_id item kind Hid) in Ha. destruct Ha.
Qed.

Lemma raises_no_id (kind : string) (item : DP.Item) :
  raises kind item = has_no_id item.
Proof.
  unfold raises, has_no_id. destruct (DP.id item) as [i|] eqn:Hid.
  - now rewrite (v1_convert_item_ok item i kind Hid).
  - now rewrite (v1_convert_item_no_id item kind Hid).
Qed.

(** X13: over source documents whose records have the shapes of the
    data model, every record of the two collections gives one asset when
    [convert_item] returns and one counted error with one printed line
    when it raises; on such records [convert_item] raises exactly when
    the id is missing, so the error count is the number of records
    without id. *)
Theorem v1_feed_accounting (feed : DP.Feed) :
  let p := V1.convert_feed feed in
  Z.of_nat (List.length (V1.assets p)) + V1.errors p =
    Z.of_nat (List.length (feed_items feed)) /\
  V1.errors p =
    Z.of_nat (List.length (filter (raises "movie") (feed_movies feed)) +
              List.length
                (filter (raises "shortform") (feed_shortforms feed))) /\
  (forall kind item, raises kind item = true <-> DP.id item = None) /\
  V1.errors p = Z.of_nat (List.length (filter has_no_id (feed_items feed))) /\
  Z.of_nat (List.length (V1.stderr p)) = V1.errors p.
Proof.
  cbv zeta. rewrite convert_feed_unfold.
  cbn [V1.assets V1.errors V1.stderr]. unfold feed_items.
  pose proof (converted_length "movie" (feed_movies feed)).
  pose proof (converted_length "shortform" (feed_shortforms feed)).
  rewrite (filter_ext (raises "movie") has_no_id (raises_no_id "movie")).
  rewrite (filter_ext (raises "shortform") has_no_id
                      (raises_no_id "shortform")).
  rewrite !length_app, !repeat_length, filter_app, length_app.
  split; [lia|]. split; [lia|]. split; [|split; lia].
  intros kind item. rewrite raises_no_id. unfold has_no_id.
  destruct (DP.id item); split; congruence.
Qed.

(** X14: the assets of the first driver follow the source: the movies
    first, then the short forms, each collection in its order and
    without the records that have no id; the ids are the source ids cut
    to 50 characters, and the types are "movie" for the first collection
    and "shortform" for the second. *)
Theorem v1_feed_order (feed : DP.Feed) :
  let p := V1.convert_feed feed in
  map SF.id (V1.assets p) =
    map (slice_to 50) (present_ids (feed_items feed)) /\
  map SF.type (V1.assets p) =
    (repeat "movie" (List.length (present_ids (feed_movies feed))) ++
     repeat "shortform"
            (List.length (present_ids (feed_shortforms feed))))%list /\
  SF.assets (V1.search_feed feed) = V1.assets p.
Proof.
  cbv zeta. split; [|split; [|reflexivity]];
    rewrite convert_feed_unfold; cbn [V1.assets]; rewrite map_app.
  - rewrite !converted_ids. unfold feed_items, present_ids.
    now rewrite flat_map_app, map_app.
  - now rewrite !converted_types.
Qed.

(** X15: the handler of the first driver prints, for a record on which
    [convert_item] raises, the literal of its loop, the id of the record
    or a question mark when it has none, and the exception.  Over source
    documents whose records have the shapes of the data model the only
    exception is the [KeyError] on "id" of a record without id, so the
    lines are the movie lines followed by the short form lines, one per
    record without id, and each shows the question mark. *)
Theorem v1_feed_error_lines (feed : DP.Feed) :
  (forall kind st item e,
     V1.convert_item item kind = Raise e ->
     V1.stderr (V1.try_convert kind st item) =
     (V1.stderr st ++
      [("  ERROR " ++ kind ++ " " ++ get (DP.id item) "?" ++ ": " ++
        V1.str_exn e)%string])%list) /\
  V1.stderr (V1.convert_feed feed) =
  (repeat "  ERROR movie ?: 'id'"
          (List.length (filter has_no_id (feed_movies feed))) ++
   repeat "  ERROR shortform ?: 'id'"
          (List.length (filter has_no_id (feed_shortforms feed))))%list.
Proof.
  split.
  - intros kind st item e H. unfold V1.try_convert. now rewrite H.
  - rewrite convert_feed_unfold. reflexivity.
Qed.

(** ** The validation loop of the first driver *)

Lemma count_long_none (texts : list SF.Text) (n : Z) :
  Forall (fun t => len (SF.value t) <= 200) texts ->
  V1.count_long texts n = n.
Proof.
  unfold V1.count_long. induction 1 as [|t texts Ht _ IH]; [reflexivity|].
  cbn [fold_left].
  destruct (Z.gtb_spec (len (SF.value t)) 200); [lia|exact IH].
Qed.

Lemma fold_check_within_limits (l : list SF.Asset) :
  Forall within_limits l ->
  forall v,
    V1.long_titles (fold_left V1.check_asset l v) = V1.long_titles v /\
    V1.long_short_desc (fold_left V1.check_asset l v) =
      V1.long_short_desc v /\
    V1.missing_duration (fold_left V1.check_asset l v) =
      V1.missing_duration v.
Proof.
  induction 1 as [|a l [Ht [Hs Hd]] _ IH]; intros v; [auto|].
  cbn [fold_left]. destruct (IH (V1.check_asset v a)) as [-> [-> ->]].
  cbn [V1.check_asset V1.long_titles V1.long_short_desc V1.missing_duration].
  rewrite !count_long_none by assumption.
  destruct (Z.eqb_spec (SF.durationInSeconds a) 0); [contradiction|auto].
Qed.

Lemma fold_check_images (l : list SF.Asset) :
  forall v,
    V1.missing_images (fold_left V1.check_asset l v) =
    V1.missing_images v + Z.of_nat (List.length (filter no_image l)).
Proof.
  induction l as [|a l IH]; intros v; [simpl; lia|].
  cbn [fold_left filter]. rewrite IH.
  cbn [V1.check_asset V1.missing_images]. unfold no_image.
  destruct (SF.images a); cbn [List.length]; lia.
Qed.

Lemma converted_within_limits (kind : string) (items : list DP.Item) :
  Forall within_limits (converted kind items).
Proof.
  eapply Forall_impl; [|apply converted_from].
  intros a [item [i [_ [Hid Ha]]]].
  rewrite (v1_convert_item_ok item i kind Hid) in Ha.
  injection Ha as <-. unfold within_limits.
  cbn [SF.titles SF.shortDescriptions SF.durationInSeconds].
  split; [|split].
  - constructor; [|constructor]. apply truncate_bound. lia.
  - constructor; [|constructor]. apply truncate_bound. lia.
  - unfold V1.duration_in_seconds.
    destruct (DP.duration _) as [[|n]|]; try discriminate.
    destruct (Z.eqb_spec n 0); [discriminate|assumption].
Qed.

Lemma converted_no_image (kind : string) (items : list DP.Item) :
  List.length (filter no_image (converted kind items)) =
  List.length (filter lacks_thumbnail items).
Proof.
  unfold converted, lacks_thumbnail, has_no_id.
  induction items as [|item items IH]; [reflexivity|].
  cbn [flat_map filter]. rewrite filter_app, length_app, IH.
  destruct (DP.id item) as [i|] eqn:Hid.
  - rewrite (v1_convert_item_ok item i kind Hid).
    cbn [filter no_image SF.images negb andb].
    destruct (truthy_str (DP.thumbnail item)); reflexivity.
  - rewrite (v1_convert_item_no_id item kind Hid). reflexivity.
Qed.

(** X16: over source documents whose records have the shapes of the
    data model, the validation loop of the first converter, run on the
    assets of its own driver, never finds a title or a short description
    above 200 characters and never finds a missing duration; the assets
    without image it counts are the converted records, those with an id,
    that have no thumbnail or an empty one. *)
Theorem v1_feed_validation (feed : DP.Feed) :
  let v := V1.validate (V1.assets (V1.convert_feed feed)) in
  V1.long_titles v = 0 /\ V1.long_short_desc v = 0 /\
  V1.missing_duration v = 0 /\
  V1.missing_images v =
    Z.of_nat (List.length (filter lacks_thumbnail (feed_items feed))).
Proof.
  cbv zeta. rewrite convert_feed_unfold. cbn [V1.assets]. unfold V1.validate.
  match goal with
  | |- context [fold_left V1.check_asset ?l ?v] =>
      destruct (fold_check_within_limits l
                  (proj2 (Forall_app _ _ _)
                     (conj (converted_within_limits "movie" _)
                           (converted_within_limits "shortform" _))) v)
        as [-> [-> ->]];
      rewrite (fold_check_images l v)
  end.
  cbn [V1.long_titles V1.long_short_desc V1.missing_duration
       V1.missing_images].
  repeat split.
  unfold feed_items.
  rewrite !filter_app, !length_app, !converted_no_image. lia.
Qed.

Lemma NoDup_snoc (x : string) (l : list string) :
  NoDup (l ++ [x]) <-> NoDup l /\ ~ In x l.
Proof.
  pose proof (NoDup_Add (Add_app x l [])) as H.
  now rewrite app_nil_r in H.
Qed.

(** X17: on any list of assets, the validation loop counts as
    duplicates exactly the assets whose id was already seen: the ids it
    has collected are the ids of the assets without repetition, the
    duplicates and the distinct ids add up to the number of assets, and
    the count is zero exactly when no two assets share an id. *)
Theorem validation_duplicates (assets : list SF.Asset) :
  let v := V1.validate assets in
  NoDup (V1.id_set v) /\
  (forall x, In x (V1.id_set v) <-> In x (map SF.id assets)) /\
  V1.dupes v + Z.of_nat (List.length (V1.id_set v)) =
    Z.of_nat (List.length assets) /\
  0 <= V1.dupes v /\
  (V1.dupes v = 0 <-> NoDup (map SF.id assets)).
Proof.
  cbv zeta. unfold V1.validate.
  induction assets as [|a assets IH] using rev_ind.
  - cbn. repeat split; auto using NoDup_nil; try lia; try tauto.
  - rewrite fold_left_app. cbn [fold_left].
    destruct IH as [ND [Hin [Hsum [Hpos Hiff]]]].
    set (v := fold_left V1.check_asset assets _) in *.
    cbn [V1.check_asset V1.id_set V1.dupes]. unfold V1.set_add.
    rewrite map_app, length_app. cbn [map List.length].
    assert (Hm : mem (SF.id a) (V1.id_set v) = true <->
                 In (SF.id a) (map SF.id assets))
      by (rewrite mem_In; apply Hin).
    destruct (mem (SF.id a) (V1.id_set v)) eqn:M.
    + assert (Ha : In (SF.id a) (map SF.id assets)) by now apply Hm.
      split; [exact ND|]. split.
      * intros x. rewrite in_app_iff, Hin. simpl. split; [tauto|].
        intros [H|[<-|[]]]; assumption.
      * split; [lia|]. split; [lia|]. split; [lia|].
        intros H. apply NoDup_snoc in H. tauto.
    + assert (Ha : ~ In (SF.id a) (map SF.id assets))
        by (intros H; apply Hm in H; discriminate).
      split; [constructor; [now rewrite Hin|exact ND]|]. split.
      * intros x. rewrite in_app_iff. simpl. rewrite Hin. tauto.
      * cbn [List.length]. split; [lia|]. split; [lia|].
        rewrite NoDup_snoc. tauto.
Qed.

(** ** The batch driver of the second converter *)

Lemma for_each_v2 (kind : string) (items : list DP.Item) :
  (existsb has_no_id items = true ->
   for_each (fun item => V2.convert_item item kind) items =
   Raise (KeyError "id")) /\
  (existsb has_no_id items = false ->
   exists assets,
     for_each (fun item => V2.convert_item item kind) items = Ok assets /\
     Forall2 (fun item a => V2.convert_item item kind = Ok a) items assets).
Proof.
  induction items as [|item items [IH1 IH2]].
  - split; [discriminate|]. intros _. exists []. split; [reflexivity|].
    constructor.
  - cbn [existsb for_each]. unfold has_no_id at 1 3.
    destruct (DP.id item) as [i|] eqn:Hid; cbn [orb].
    + pose proof (v2_convert_item_ok item i kind Hid) as Hok.
      cbv zeta in Hok. rewrite Hok. cbn [bind]. split.
      * intros H. now rewrite (IH1 H).
      * intros H. destruct (IH2 H) as [assets [-> F]]. cbn [bind].
        eexists. split; [reflexivity|]. constructor; [exact Hok|exact F].
    + rewrite (v2_convert_item_no_id item kind Hid).
      split; [reflexivity|discriminate].
Qed.

Lemma v2_converted_ids (kind : string) (items : list DP.Item)
  (assets : list SF.Asset) :
  Forall2 (fun item a => V2.convert_item item kind = Ok a) items assets ->
  map SF.id assets = present_ids items /\
  (forall item, In item items -> DP.id item <> None).
Proof.
  induction 1 as [|item a items assets Ha _ [IH1 IH2]].
  - split; [reflexivity|]. intros item [].
  - unfold present_ids in *. cbn [map flat_map].
    destruct (DP.id item) as [i|] eqn:Hid.
    + rewrite (v2_convert_item_ok item i kind Hid) in Ha.
      injection Ha as <-. cbn [SF.id app]. split; [now rewrite IH1|].
      intros x [<-|Hx]; [congruence|now apply IH2].
    + rewrite (v2_convert_item_no_id item kind Hid) in Ha. discriminate.
Qed.

Lemma existsb_has_no_id (items : list DP.Item) :
  existsb has_no_id items = true <->
  exists item, In item items /\ DP.id item = None.
Proof.
  rewrite existsb_exists. unfold has_no_id.
  split; intros [item [Hin H]]; exists item; split; auto;
    destruct (DP.id item); congruence.
Qed.

(** X18: the second driver converts all or nothing.  When every record
    of the two collections has an id it returns one asset per record,
    movies first and in order, each with the id of its record unchanged;
    as soon as one record has no id the whole run ends with the
    [KeyError] on "id" and no asset is returned. *)
Theorem v2_feed_all_or_nothing (feed : DP.Feed) :
  match V2.convert_feed feed with
  | Ok assets =>
      (forall item, In item (feed_items feed) -> DP.id item <> None) /\
      List.length assets = List.length (feed_items feed) /\
      map SF.id assets = present_ids (feed_items feed)
  | Raise e =>
      e = KeyError "id" /\
      exists item, In item (feed_items feed) /\ DP.id item = None
  end.
Proof.
  unfold V2.convert_feed, feed_items. cbv zeta.
  fold (feed_movies feed). fold (feed_shortforms feed).
  destruct (for_each_v2 "movie" (feed_movies feed)) as [M1 M2].
  destruct (for_each_v2 "shortform" (feed_shortforms feed)) as [S1 S2].
  destruct (existsb has_no_id (feed_movies feed)) eqn:EM.
  - rewrite (M1 eq_refl). cbn [bind]. split; [reflexivity|].
    apply existsb_has_no_id in EM. destruct EM as [item [Hin Hid]].
    exists item. split; [apply in_or_app; now left|exact Hid].
  - destruct (M2 eq_refl) as [ms [-> FM]]. cbn [bind].
    destruct (existsb has_no_id (feed_shortforms feed)) eqn:ES.
    + rewrite (S1 eq_refl). cbn [bind]. split; [reflexivity|].
      apply existsb_has_no_id in ES. destruct ES as [item [Hin Hid]].
      exists item. split; [apply in_or_app; now right|exact Hid].
    + destruct (S2 eq_refl) as [ss [-> FS]]. cbn [bind].
      destruct (v2_converted_ids _ _ _ FM) as [IM NM].
      destruct (v2_converted_ids _ _ _ FS) as [IS NS].
      split; [|split].
      * intros item Hin. apply in_app_or in Hin.
        destruct Hin; [now apply NM|now apply NS].
      * rewrite !length_app.
        now rewrite (Forall2_length FM), (Forall2_length FS).
      * rewrite map_app, IM, IS. unfold present_ids.
        now rewrite flat_map_app.
Qed.

(** ** The two drivers side by side *)

Lemma converted_all (kind : string) (items : list DP.Item) :
  existsb has_no_id items = false ->
  Forall2 (fun item a => V1.convert_item item kind = Ok a)
          items (converted kind items).
Proof.
  unfold converted, has_no_id.
  induction items as [|item items IH]; [constructor|].
  cbn [existsb flat_map].
  destruct (DP.id item) as [i|] eqn:Hid; [|discriminate].
  cbn [orb]. intros H.
  rewrite (v1_convert_item_ok item i kind Hid). cbn [app].
  constructor; [apply (v1_convert_item_ok item i kind Hid)|now apply IH].
Qed.

Lemma Forall2_common {A B C : Type} (R1 : A -> B -> Prop)
  (R2 : A -> C -> Prop) (l : list A) (l1 : list B) :
  Forall2 R1 l l1 ->
  forall l2, Forall2 R2 l l2 ->
  Forall2 (fun b c => exists a, R1 a b /\ R2 a c) l1 l2.
Proof.
  induction 1 as [|a b l l1 Hab _ IH]; intros l2 H2; inversion H2; subst.
  - constructor.
  - constructor; [now exists a|now apply IH].
Qed.

Lemma filter_none {A : Type} (f : A -> bool) (l : list A) :
  existsb f l = false -> filter f l = [].
Proof.
  induction l as [|x l IH]; [reflexivity|].
  simpl. destruct (f x); [discriminate|exact IH].
Qed.

Lemma both_converted (kind : string) (item : DP.Item) (a1 a2 : SF.Asset) :
  V1.convert_item item kind = Ok a1 ->
  V2.convert_item item kind = Ok a2 ->
  SF.id a1 = slice_to 50 (SF.id a2) /\
  SF.releaseDate a1 = SF.releaseDate a2 /\
  SF.images a1 = SF.images a2.
Proof.
  intros H1 H2. destruct (DP.id item) as [i|] eqn:Hid.
  - rewrite (v1_convert_item_ok item i kind Hid) in H1.
    rewrite (v2_convert_item_ok item i kind Hid) in H2.
    injection H1 as <-. injection H2 as <-.
    cbn [SF.id SF.releaseDate SF.images].
    split; [reflexivity|]. split; [reflexivity|].
    destruct (DP.thumbnail item) as [[|c th]|]; reflexivity.
  - rewrite (v1_convert_item_no_id item kind Hid) in H1. discriminate.
Qed.

(** X19: on a source document whose records all have an id the two
    drivers agree on the shape of the result: the first one counts no
    error and prints no line, the second one does not raise, and their
    assets correspond one to one, in order, with the same release date
    and images, the id of the first being the id of the second cut to 50
    characters. *)
Theorem drivers_agree (feed : DP.Feed) :
  existsb has_no_id (feed_items feed) = false ->
  V1.errors (V1.convert_feed feed) = 0 /\
  V1.stderr (V1.convert_feed feed) = [] /\
  exists assets2,
    V2.convert_feed feed = Ok assets2 /\
    Forall2 (fun a1 a2 =>
               SF.id a1 = slice_to 50 (SF.id a2) /\
               SF.releaseDate a1 = SF.releaseDate a2 /\
               SF.images a1 = SF.images a2)
            (V1.assets (V1.convert_feed feed)) assets2.
Proof.
  unfold feed_items. rewrite existsb_app. intros H.
  apply orb_false_iff in H. destruct H as [EM ES].
  pose proof (filter_none _ _ EM) as FM.
  pose proof (filter_none _ _ ES) as FS.
  rewrite convert_feed_unfold. cbn [V1.assets V1.errors V1.stderr].
  unfold feed_items. rewrite filter_app, FM, FS.
  split; [reflexivity|]. split; [reflexivity|].
  unfold V2.convert_feed. cbv zeta.
  fold (feed_movies feed). fold (feed_shortforms feed).
  destruct (proj2 (for_each_v2 "movie" _) EM) as [ms [-> F2M]].
  destruct (proj2 (for_each_v2 "shortform" _) ES) as [ss [-> F2S]].
  cbn [bind]. eexists. split; [reflexivity|].
  apply Forall2_app.
  - eapply Forall2_impl;
      [|apply (Forall2_common _ _ _ _ (converted_all "movie" _ EM) _ F2M)].
    intros a1 a2 [item [H1 H2]]. exact (both_converted _ _ _ _ H1 H2).
  - eapply Forall2_impl;
      [|apply (Forall2_common _ _ _ _ (converted_all "shortform" _ ES)
                 _ F2S)].
    intros a1 a2 [item [H1 H2]]. exact (both_converted _ _ _ _ H1 H2).
Qed.

Lemma drivers_agree_witness :
  V1.errors (V1.convert_feed sample_feed) = 0 /\
  exists assets2,
    V2.convert_feed sample_feed = Ok assets2 /\
    List.length assets2 = 3%nat.
Proof.
  destruct (drivers_agree sample_feed eq_refl) as [He [_ [assets2 [H2 F]]]].
  split; [exact He|]. exists assets2. split; [exact H2|].
  injection H2 as <-. reflexivity.
Defined.

(** X20: cutting the ids can merge them.  Two movies whose ids agree on
    their first 50 characters become two assets with the same id, and the
    validation loop of the first driver counts one duplicate, also when
    the source ids differ. *)
Theorem truncated_ids_collide (m1 m2 : DP.Item) (i1 i2 : string) :
  DP.id m1 = Some i1 -> DP.id m2 = Some i2 ->
  slice_to 50 i1 = slice_to 50 i2 ->
  let assets := V1.assets (V1.convert_feed (two_movies m1 m2)) in
  map SF.id assets = [slice_to 50 i1; slice_to 50 i1] /\
  V1.dupes (V1.validate assets) = 1.
Proof.
  intros H1 H2 E. cbv zeta. rewrite convert_feed_unfold.
  cbn [V1.assets two_movies feed_movies feed_shortforms get DP.movies
       DP.shortFormVideos]. unfold converted. cbn [flat_map].
  rewrite (v1_convert_item_ok m1 i1 "movie" H1).
  rewrite (v1_convert_item_ok m2 i2 "movie" H2).
  cbn [app map SF.id]. rewrite <- E. split; [reflexivity|].
  unfold V1.validate. cbn [fold_left V1.check_asset V1.dupes V1.id_set SF.id].
  unfold V1.set_add, mem. cbn [existsb orb].
  now rewrite String.eqb_refl.
Qed.

Lemma truncated_ids_collide_witness :
  long_id <> long_id ++ "x" /\
  V1.dupes
    (V1.validate
       (V1.assets
          (V1.convert_feed
             (two_movies (DP.only_id long_id)
                         (DP.only_id (long_id ++ "x")))))) = 1.
Proof.
  split; [vm_compute; discriminate|].
  apply (truncated_ids_collide (DP.only_id long_id)
           (DP.only_id (long_id ++ "x")) long_id (long_id ++ "x"));
    reflexivity.
Defined.
